(** * prompt-frame-gallery: the similarity service ([fastapi/app.py])

    A shallow embedding of the FastAPI application and of its Celery task:
    the upload endpoint, the indexing task [compute_and_index], the vector
    search endpoint, the classification endpoint and the health probe.

    The three stores the code talks to (the MinIO bucket, the PostgreSQL
    table [sim_images], the Redis hashes indexed by [image_vectors]) are
    finite maps; the local file system and the Celery broker are part of
    the state as well.  Every write goes through one function,
    [apply_event], and is appended to a log, so that the order of the
    writes of a run can be read off the final state.

    The libraries behind the calls (minio, psycopg2, redis-py, celery,
    sentence-transformers, numpy, PIL, transformers) are not part of the
    repository.  What they answer is given by a record [env]: whether a
    call raises, what the embedder returns, what the KNN query returns.
    Theorems quantify over every [env]. *)

From Stdlib Require Import ZArith String Ascii PrimFloat SpecFloat FloatOps.
From stdpp Require Import gmap strings list pretty.

Local Open Scope string_scope.
Local Open Scope list_scope.
Local Open Scope Z_scope.

(** ** Python values used by the code *)

Definition bytes := list Byte.byte.

(** [bool(s)] for a [str]. *)
Definition truthy (s : string) : bool :=
  match s with
  | EmptyString => false
  | String _ _ => true
  end.

(** [a or b] on [str]. *)
Definition py_or (a b : string) : string := if truthy a then a else b.

(** *** White space

    A Python [str] is a sequence of code points; here it is the string of
    its UTF-8 bytes.  [str.strip] and [str.split] take as white space the
    code points U+0009-000D, U+001C-0020, U+0085, U+00A0, U+1680,
    U+2000-200A, U+2028, U+2029, U+202F, U+205F and U+3000: one, two or
    three bytes each.  In UTF-8 none of these byte sequences can begin inside
    another character. *)

Definition byte_in (c : ascii) (lo hi : N) : bool :=
  ((lo <=? N_of_ascii c)%N && (N_of_ascii c <=? hi)%N).

(** U+0009-000D and U+001C-0020 *)
Definition is_ascii_space (c : ascii) : bool := byte_in c 9 13 || byte_in c 28 32.

(** U+0085 and U+00A0: [C2 85], [C2 A0] *)
Definition two_byte_space (c d : ascii) : bool :=
  byte_in c 194 194 && (byte_in d 133 133 || byte_in d 160 160).

(** U+1680 [E1 9A 80]; U+2000-200A, U+2028, U+2029, U+202F [E2 80 ..];
    U+205F [E2 81 9F]; U+3000 [E3 80 80] *)
Definition three_byte_space (c d1 d2 : ascii) : bool :=
  (byte_in c 225 225 && byte_in d1 154 154 && byte_in d2 128 128)
  || (byte_in c 226 226 && byte_in d1 128 128
      && (byte_in d2 128 138 || byte_in d2 168 169 || byte_in d2 175 175))
  || (byte_in c 226 226 && byte_in d1 129 129 && byte_in d2 159 159)
  || (byte_in c 227 227 && byte_in d1 128 128 && byte_in d2 128 128).

(** What follows the white-space character at the head of [s], if [s]
    begins with one. *)
Definition leading_space (s : string) : option string :=
  match s with
  | EmptyString => None
  | String c s1 =>
      if is_ascii_space c then Some s1
      else match s1 with
           | EmptyString => None
           | String d1 s2 =>
               if two_byte_space c d1 then Some s2
               else match s2 with
                    | EmptyString => None
                    | String d2 s3 =>
                        if three_byte_space c d1 d2 then Some s3 else None
                    end
           end
  end.

Arguments leading_space : simpl never.

Fixpoint lstrip_fuel (n : nat) (s : string) : string :=
  match n with
  | O => s
  | S n' =>
      match leading_space s with
      | Some r => lstrip_fuel n' r
      | None => s
      end
  end.

(** [s.lstrip()] *)
Definition lstrip (s : string) : string := lstrip_fuel (String.length s) s.

(** [s] is made of white space only. *)
Definition all_space (s : string) : bool := negb (truthy (lstrip s)).

(** [s.rstrip()] *)
Fixpoint rstrip (s : string) : string :=
  match s with
  | EmptyString => EmptyString
  | String c s' => if all_space s then EmptyString else String c (rstrip s')
  end.

(** [s.strip()] *)
Definition strip (s : string) : string := lstrip (rstrip s).

(** [s.split(sep)] for a one-character separator: empty pieces are kept. *)
Fixpoint split_sep (sep : ascii) (s : string) : list string :=
  match s with
  | EmptyString => [EmptyString]
  | String c s' =>
      if Ascii.eqb c sep then EmptyString :: split_sep sep s'
      else match split_sep sep s' with
           | [] => [String c EmptyString]
           | p :: ps => String c p :: ps
           end
  end.

(** The characters of [s] up to the first white space, and the rest. *)
Fixpoint take_word (s : string) : string * string :=
  match s with
  | EmptyString => (EmptyString, EmptyString)
  | String c s' =>
      match leading_space s with
      | Some _ => (EmptyString, s)
      | None => let '(p, r) := take_word s' in (String c p, r)
      end
  end.

Fixpoint split_ws_fuel (n : nat) (s : string) : list string :=
  match n with
  | O => []
  | S n' =>
      match lstrip s with
      | EmptyString => []
      | s1 => let '(p, r) := take_word s1 in p :: split_ws_fuel n' r
      end
  end.

(** [s.split()]: runs of white space separate, no empty piece. *)
Definition split_ws (s : string) : list string :=
  split_ws_fuel (S (String.length s)) s.

(** [sep.join(l)] *)
Definition join (sep : string) (l : list string) : string := String.concat sep l.

(** [p.rfind(c)], counted from [i]; -1 when [c] does not occur. *)
Fixpoint rfind_from (c : ascii) (p : string) (i : Z) : Z :=
  match p with
  | EmptyString => -1
  | String a p' =>
      let r := rfind_from c p' (i + 1) in
      if 0 <=? r then r else if Ascii.eqb a c then i else -1
  end.

Definition rfind (c : ascii) (p : string) : Z := rfind_from c p 0.

(** Is some character of [p] at an index in [[lo, lo + n)] not [c]? *)
Fixpoint other_than (c : ascii) (p : string) (lo : Z) (n : nat) : bool :=
  match n with
  | O => false
  | S n' =>
      match String.get (Z.to_nat lo) p with
      | Some a => if Ascii.eqb a c then other_than c p (lo + 1) n' else true
      | None => other_than c p (lo + 1) n'
      end
  end.

(** [os.path.splitext(p)] (posixpath): the extension starts at the last dot
    of the last path component, leading dots of that component apart. *)
Definition splitext (p : string) : string * string :=
  let sepIndex := rfind "/" p in
  let dotIndex := rfind "." p in
  if (sepIndex <? dotIndex)
     && other_than "." p (sepIndex + 1) (Z.to_nat (dotIndex - (sepIndex + 1)))
  then (String.substring 0 (Z.to_nat dotIndex) p,
        String.substring (Z.to_nat dotIndex) (String.length p - Z.to_nat dotIndex)%nat p)
  else (p, EmptyString).

(** ** Exceptions *)

Inductive exn : Type :=
  | HTTPException (status_code : Z) (detail : string)
  | TypeError (msg : string)
  | AttributeError (attr : string)
  | ValueError (msg : string)
  | S3Error (code : string)
  | LibraryError (cls msg : string).

Inductive outcome (A : Type) : Type :=
  | Ok (a : A)
  | Raise (e : exn).
Arguments Ok {A} a.
Arguments Raise {A} e.

(** ** Data model *)

(** A row of [sim_images] (the key [image_id] is the key of the map). *)
Record row : Type := Row {
  row_title : string;
  row_tags : option (list string);
  row_url : string;
  row_status : string;
  row_uploaded_at : Z
}.

(** [status TEXT DEFAULT 'pending'] in [ensure_tables]. *)
Definition status_default : string := "pending".

(** The fields [add_document] is given, under the key [img:<image_id>]. *)
Record doc : Type := Doc {
  doc_image_id : string;
  doc_title : string;
  doc_tags : string;
  doc_url : string;
  doc_embedding : list float
}.

(** The arguments of one [compute_and_index.delay(...)]. *)
Record job : Type := Job {
  job_image_id : string;
  job_object_key : string;
  job_title : string;
  job_tags : option (list string)
}.

(** A [Document] of a search reply: its attributes by name
    ([decode_responses=True]: the values are [str]). *)
Abbreviation rdoc := (gmap string string).

(** [SearchResponseItem] *)
Record item : Type := Item {
  item_image_id : string;
  item_score : float;
  item_title : string;
  item_url : string;
  item_tags : list string
}.

(** ** State and writes *)

Inductive event : Type :=
  | BlobPut (key : string) (data : bytes)
  | FileWrite (path : string) (data : bytes)
  | SqlInsert (image_id : string) (r : row)
  | SqlUpdateStatus (image_id status : string)
  | IndexAdd (key : string) (d : doc)
  | Enqueue (j : job)
  | ClassifierLoad.

Record world : Type := World {
  blobs : gmap string bytes;
  fs : gmap string bytes;
  sim_images : gmap string row;
  image_vectors : gmap string doc;
  queue : list job;
  classifier_loaded : bool;
  log : list event
}.

Definition set_status (st : string) (r : row) : row :=
  Row (row_title r) (row_tags r) (row_url r) st (row_uploaded_at r).

(** [INSERT ... ON CONFLICT (image_id) DO NOTHING] *)
Definition insert_do_nothing (image_id : string) (r : row)
    (t : gmap string row) : gmap string row :=
  match t !! image_id with
  | Some _ => t
  | None => <[image_id := r]> t
  end.

(** [UPDATE sim_images SET status=st WHERE image_id=...] *)
Definition update_status (image_id st : string)
    (t : gmap string row) : gmap string row :=
  alter (set_status st) image_id t.

Definition apply_event (ev : event) (w : world) : world :=
  let l := log w ++ [ev] in
  match ev with
  | BlobPut k data =>
      World (<[k := data]> (blobs w)) (fs w) (sim_images w) (image_vectors w)
            (queue w) (classifier_loaded w) l
  | FileWrite p data =>
      World (blobs w) (<[p := data]> (fs w)) (sim_images w) (image_vectors w)
            (queue w) (classifier_loaded w) l
  | SqlInsert i r =>
      World (blobs w) (fs w) (insert_do_nothing i r (sim_images w))
            (image_vectors w) (queue w) (classifier_loaded w) l
  | SqlUpdateStatus i st =>
      World (blobs w) (fs w) (update_status i st (sim_images w))
            (image_vectors w) (queue w) (classifier_loaded w) l
  | IndexAdd k d =>
      World (blobs w) (fs w) (sim_images w) (<[k := d]> (image_vectors w))
            (queue w) (classifier_loaded w) l
  | Enqueue j =>
      World (blobs w) (fs w) (sim_images w) (image_vectors w)
            (queue w ++ [j]) (classifier_loaded w) l
  | ClassifierLoad =>
      World (blobs w) (fs w) (sim_images w) (image_vectors w)
            (queue w) true l
  end.

(** The state after a sequence of writes. *)
Definition replay (evs : list event) (w : world) : world :=
  foldl (fun w ev => apply_event ev w) w evs.

(** The states an observer can see while [evs] are applied, oldest first. *)
Fixpoint observations (w : world) (evs : list event) : list world :=
  match evs with
  | [] => [w]
  | ev :: evs' => w :: observations (apply_event ev w) evs'
  end.

(** The status a write gives to a record, if it gives one. *)
Definition status_written (ev : event) : option string :=
  match ev with
  | SqlInsert _ r => Some (row_status r)
  | SqlUpdateStatus _ st => Some st
  | _ => None
  end.

(** ** A state and exception monad

    A raised exception keeps the state reached so far. *)

Definition M (A : Type) : Type := world -> outcome A * world.

Definition ret {A} (a : A) : M A := fun w => (Ok a, w).
Definition raise {A} (e : exn) : M A := fun w => (Raise e, w).
Definition bind {A B} (c : M A) (k : A -> M B) : M B :=
  fun w =>
    match c w with
    | (Ok a, w') => k a w'
    | (Raise e, w') => (Raise e, w')
    end.
Definition try_except {A} (c : M A) (h : exn -> M A) : M A :=
  fun w =>
    match c w with
    | (Ok a, w') => (Ok a, w')
    | (Raise e, w') => h e w'
    end.
Definition emit (ev : event) : M unit := fun w => (Ok tt, apply_event ev w).
Definition lift {A} (o : outcome A) : M A := fun w => (o, w).
Definition check (f : option exn) : M unit :=
  match f with
  | Some e => raise e
  | None => ret tt
  end.

Notation "x <- c ;; k" := (bind c (fun x => k))
  (at level 100, c at next level, right associativity).
Notation "c ;; k" := (bind c (fun _ => k))
  (at level 100, right associativity).

Fixpoint mapM {A B} (f : A -> M B) (l : list A) : M (list B) :=
  match l with
  | [] => ret []
  | a :: l' => b <- f a ;; bs <- mapM f l' ;; ret (b :: bs)
  end.

(** ** The libraries behind the calls

    One [env] describes what the outside answers during one request or one
    task run. *)

Record env : Type := Env {
  (** [str(uuid.uuid4())] *)
  uuid4 : string;
  (** [NOW()], the default of [uploaded_at] *)
  pg_now : Z;
  (** the path [tempfile.NamedTemporaryFile] picks, before its suffix *)
  tmp_stem : gmap string bytes -> string;
  (** the MinIO call cannot reach the server, or is refused *)
  minio_fault : option exn;
  (** [pg_conn()], [cur.execute] or [conn.commit()] raises *)
  pg_fault : option exn;
  (** [add_document] raises on this index, key and document *)
  redis_add_fault : gmap string doc -> string -> doc -> option exn;
  (** the reply of [r.ft("image_vectors").search(query, params)] *)
  ft_search : gmap string doc -> string -> list float -> outcome (list rdoc);
  (** [compute_and_index.delay] cannot reach the broker *)
  broker_fault : option exn;
  (** [from sentence_transformers import SentenceTransformer] or
      [SentenceTransformer(...)] raises *)
  st_load : option exn;
  (** the failure [st_load], if there is one, is that of the import: the
      package is not installed where the code runs *)
  st_at_import : bool;
  (** [model.encode([s], convert_to_numpy=True)], row 0 of the result *)
  st_encode : gmap string bytes -> string -> outcome (list float);
  (** [x.astype("float32")], [x / np.linalg.norm(x, axis=1, keepdims=True)]
      and [x[0].tolist()]: numpy divides without raising *)
  np_normalize : list float -> list float;
  (** [float(s)] for a [str]; [None] is [ValueError] *)
  py_float : string -> option float;
  (** [str(e)] *)
  str_exc : exn -> string;
  (** [Image.open(...).convert("RGB")] raises *)
  pil_open : bytes -> option exn;
  (** [pipeline("image-classification", ...)] raises *)
  clf_load : option exn;
  (** [clf(image, top_k=top_k)] as pairs of label and score *)
  clf_predict : bytes -> Z -> outcome (list (string * float))
}.

(** The error of [from sentence_transformers import SentenceTransformer],
    the first statement of the task and of the search endpoint. *)
Definition import_fault (E : env) : option exn :=
  if st_at_import E then st_load E else None.

Section Service.

Variable E : env.

(** *** Adapters *)

(** [mc.put_object(MINIO_BUCKET, object_key, io.BytesIO(data), ...)] *)
Definition put_object (object_key : string) (data : bytes) : M unit :=
  check (minio_fault E) ;;
  emit (BlobPut object_key data).

(** [mc.fget_object(MINIO_BUCKET, object_key, file_path)] *)
Definition fget_object (object_key file_path : string) : M unit :=
  check (minio_fault E) ;;
  fun w =>
    match blobs w !! object_key with
    | Some data => emit (FileWrite file_path data) w
    | None => raise (S3Error "NoSuchKey") w
    end.

(** [tempfile.NamedTemporaryFile(suffix=suffix, delete=False)]: the file is
    created empty and stays after the [with] block. *)
Definition NamedTemporaryFile (suffix : string) : M string :=
  fun w =>
    let name := tmp_stem E (fs w) +:+ suffix in
    (Ok name, apply_event (FileWrite name []) w).

(** [SentenceTransformer(os.getenv("EMBED_MODEL", "clip-ViT-B-32"))] *)
Definition SentenceTransformer : M unit := check (st_load E).

(** [model.encode([s], convert_to_numpy=True)] *)
Definition encode (s : string) : M (list float) :=
  fun w => (st_encode E (fs w) s, w).

(** [r.ft("image_vectors").add_document(doc_id, **fields)] *)
Definition add_document (doc_id : string) (d : doc) : M unit :=
  fun w =>
    match redis_add_fault E (image_vectors w) doc_id d with
    | Some e => raise e w
    | None => emit (IndexAdd doc_id d) w
    end.

(** [r.ft("image_vectors").search(query, {"query_vector": qv})] *)
Definition search (query : string) (qv : list float) : M (list rdoc) :=
  fun w => (ft_search E (image_vectors w) query qv, w).

(** One SQL statement in its own transaction. *)
Definition execute (ev : event) : M unit :=
  check (pg_fault E) ;;
  emit ev.

(** [compute_and_index.delay(image_id, object_key, title, tag_list)] *)
Definition delay (j : job) : M unit :=
  check (broker_fault E) ;;
  emit (Enqueue j).

(** *** The Celery task *)

Definition doc_key (image_id : string) : string := "img:" +:+ image_id.

Definition compute_and_index (image_id object_key title : string)
    (tags : option (list string)) : M bool :=
  (* from sentence_transformers import SentenceTransformer *)
  check (import_fault E) ;;
  (* import tempfile; mc = minio_client(); r = redis_client(): two client
     objects built from the module's constants, as ensure_bucket and
     ensure_redis_index built them when the module was imported; no
     connection is made here *)
  (* download image to temp *)
  tmp_path <- NamedTemporaryFile ".img" ;;
  fget_object object_key tmp_path ;;
  (* compute embedding *)
  SentenceTransformer ;;
  emb <- encode tmp_path ;;
  (* normalize for cosine similarity *)
  let x := np_normalize E emb in
  (* store in Redis *)
  add_document (doc_key image_id)
    (Doc image_id (py_or title "") (join " " (default [] tags)) object_key x) ;;
  (* mark indexed *)
  execute (SqlUpdateStatus image_id "indexed") ;;
  ret true.

(** A delivery of a queued job to the task. *)
Definition run_job (j : job) : M bool :=
  compute_and_index (job_image_id j) (job_object_key j) (job_title j) (job_tags j).

(** *** [POST /api/upload] *)

Definition upload_image (filename : option string) (data : bytes)
    (title tags : string) : M (string * string) :=
  try_except
    (let image_id := uuid4 E in
     ext <- match filename with
            | Some f => ret (py_or (snd (splitext f)) ".jpg")
            | None => raise (TypeError "expected str, bytes or os.PathLike object, not NoneType")
            end ;;
     let object_key := "similarity/" +:+ image_id +:+ ext in
     put_object object_key data ;;
     let tag_list := List.filter truthy (map strip (split_sep "," tags)) in
     execute (SqlInsert image_id
                (Row title (match tag_list with [] => None | _ => Some tag_list end)
                     object_key "pending" (pg_now E))) ;;
     delay (Job image_id object_key title (Some tag_list)) ;;
     ret (image_id, "queued"))
    (fun e => raise (HTTPException 500 (str_exc E e))).

(** *** [POST /api/search/vector] *)

(** [doc.<name>] *)
Definition getattr (d : rdoc) (name : string) : M string :=
  match d !! name with
  | Some v => ret v
  | None => raise (AttributeError name)
  end.

(** [float(doc.__dict__.get('__score', 0))] *)
Definition doc_score (d : rdoc) : M float :=
  match d !! "__score" with
  | None => ret 0%float
  | Some s =>
      match py_float E s with
      | Some x => ret x
      | None => raise (ValueError "could not convert string to float")
      end
  end.

(** The dictionary appended to [results] for one [doc]. *)
Definition result_of_doc (d : rdoc) : M item :=
  image_id <- getattr d "image_id" ;;
  score <- doc_score d ;;
  title <- getattr d "title" ;;
  url <- getattr d "url" ;;
  tags <- getattr d "tags" ;;
  ret (Item image_id score (py_or title "") (py_or url "")
            (if truthy tags then split_ws tags else [])).

Definition knn_query (top_k : Z) : string :=
  "*=>[KNN " +:+ pretty top_k +:+ " @embedding $query_vector]".

Definition search_vector (query_text : option string)
    (query_image : option bytes) (top_k : Z) : M (list item) :=
  try_except
    ((* compute query embedding *)
     check (import_fault E) ;;
     SentenceTransformer ;;
     q <- (if truthy (default "" query_text) then
             encode (default "" query_text)
           else
             match query_image with
             | Some data =>
                 emit (FileWrite "/tmp/query.img" data) ;;
                 encode "/tmp/query.img"
             | None =>
                 raise (HTTPException 400 "Provide query_text or query_image")
             end) ;;
     (* normalize for cosine similarity *)
     let q := np_normalize E q in
     (* search Redis vector index *)
     try_except
       (docs <- search (knn_query top_k) q ;;
        mapM result_of_doc docs)
       (fun _ => ret []))
    (fun e => raise (HTTPException 500 (str_exc E e))).

(** *** [POST /api/classify] and [GET /api/health] *)

Definition get_image_classifier : M unit :=
  fun w =>
    if classifier_loaded w then ret tt w
    else (check (clf_load E) ;; emit ClassifierLoad) w.

Definition classify_image (data : bytes) (top_k : Z) : M (list (string * float)) :=
  try_except
    (check (pil_open E data) ;;
     get_image_classifier ;;
     lift (clf_predict E data top_k))
    (fun e => raise (HTTPException 500 (str_exc E e))).

Definition health : M string := ret "ok".

End Service.

(** ** Everything that can run *)

Inductive request : Type :=
  | Upload (filename : option string) (data : bytes) (title tags : string)
  | SearchVector (query_text : option string) (query_image : option bytes) (top_k : Z)
  | Classify (data : bytes) (top_k : Z)
  | Health
  | Task (j : job).

(** The state a request or task run leaves behind. *)
Definition handle (E : env) (rq : request) (w : world) : world :=
  match rq with
  | Upload f data title tags => snd (upload_image E f data title tags w)
  | SearchVector qt qi k => snd (search_vector E qt qi k w)
  | Classify data k => snd (classify_image E data k w)
  | Health => snd (health w)
  | Task j => snd (run_job E j w)
  end.

(** The state after the module is imported on a fresh deployment:
    [ensure_tables], [ensure_bucket] and [ensure_redis_index] have created an
    empty table, an empty bucket and an empty index. *)
Definition fresh_world : world := World ∅ ∅ ∅ ∅ [] false [].

(** Successive deliveries of the same job, one [env] per delivery, whatever
    each delivery returns. *)
Fixpoint redeliver (Es : list env) (j : job) (w : world) : world :=
  match Es with
  | [] => w
  | E :: Es' => redeliver Es' j (snd (run_job E j w))
  end.

Definition status_of (w : world) (image_id : string) : option string :=
  row_status <$> sim_images w !! image_id.

(** * Vocabulary of the statements *)

(** ** The runs of the indexing task

    [task_run E j w res evs]: a delivery of [j] in state [w] returns [res]
    after the writes [evs].  One constructor per place where the task can
    stop. *)

Section TaskRuns.

Variable E : env.
Variable j : job.
Variable w : world.

Let tmp_path : string := tmp_stem E (fs w) +:+ ".img".

Definition task_doc (emb : list float) : doc :=
  Doc (job_image_id j) (py_or (job_title j) "")
      (join " " (default [] (job_tags j))) (job_object_key j)
      (np_normalize E emb).

Definition task_files (data : bytes) : gmap string bytes :=
  <[tmp_path := data]> (<[tmp_path := []]> (fs w)).

Inductive task_run : outcome bool -> list event -> Prop :=
  | run_fetch_fault e :
      import_fault E = None ->
      minio_fault E = Some e ->
      task_run (Raise e) [FileWrite tmp_path []]
  | run_no_blob :
      import_fault E = None ->
      minio_fault E = None ->
      blobs w !! job_object_key j = None ->
      task_run (Raise (S3Error "NoSuchKey")) [FileWrite tmp_path []]
  | run_load_fault data e :
      import_fault E = None ->
      minio_fault E = None ->
      blobs w !! job_object_key j = Some data ->
      st_load E = Some e ->
      task_run (Raise e) [FileWrite tmp_path []; FileWrite tmp_path data]
  | run_encode_fault data e :
      import_fault E = None ->
      minio_fault E = None ->
      blobs w !! job_object_key j = Some data ->
      st_load E = None ->
      st_encode E (task_files data) tmp_path = Raise e ->
      task_run (Raise e) [FileWrite tmp_path []; FileWrite tmp_path data]
  | run_add_fault data emb e :
      import_fault E = None ->
      minio_fault E = None ->
      blobs w !! job_object_key j = Some data ->
      st_load E = None ->
      st_encode E (task_files data) tmp_path = Ok emb ->
      redis_add_fault E (image_vectors w) (doc_key (job_image_id j)) (task_doc emb) = Some e ->
      task_run (Raise e) [FileWrite tmp_path []; FileWrite tmp_path data]
  | run_update_fault data emb e :
      import_fault E = None ->
      minio_fault E = None ->
      blobs w !! job_object_key j = Some data ->
      st_load E = None ->
      st_encode E (task_files data) tmp_path = Ok emb ->
      redis_add_fault E (image_vectors w) (doc_key (job_image_id j)) (task_doc emb) = None ->
      pg_fault E = Some e ->
      task_run (Raise e)
        [FileWrite tmp_path []; FileWrite tmp_path data;
         IndexAdd (doc_key (job_image_id j)) (task_doc emb)]
  | run_done data emb :
      import_fault E = None ->
      minio_fault E = None ->
      blobs w !! job_object_key j = Some data ->
      st_load E = None ->
      st_encode E (task_files data) tmp_path = Ok emb ->
      redis_add_fault E (image_vectors w) (doc_key (job_image_id j)) (task_doc emb) = None ->
      pg_fault E = None ->
      task_run (Ok true)
        [FileWrite tmp_path []; FileWrite tmp_path data;
         IndexAdd (doc_key (job_image_id j)) (task_doc emb);
         SqlUpdateStatus (job_image_id j) "indexed"]
  | run_import_fault e :
      import_fault E = Some e ->
      task_run (Raise e) [].

End TaskRuns.

(** ** Indexed records have an index entry *)

(** Every record whose status is ['indexed'] has a document under its key,
    carrying its [image_id]. *)
Definition indexed_has_entry (w : world) : Prop :=
  forall (i : string) (r : row),
    sim_images w !! i = Some r -> row_status r = "indexed" ->
    exists d, image_vectors w !! doc_key i = Some d /\ doc_image_id d = i.

(** What a write needs from the state it is applied to. *)
Definition keeps_entries (w : world) (ev : event) : Prop :=
  match ev with
  | SqlInsert _ r => row_status r <> "indexed"
  | SqlUpdateStatus i st =>
      st = "indexed" ->
      exists d, image_vectors w !! doc_key i = Some d /\ doc_image_id d = i
  | IndexAdd k d => k = doc_key (doc_image_id d)
  | _ => True
  end.

Fixpoint safe_trace (w : world) (evs : list event) : Prop :=
  match evs with
  | [] => True
  | ev :: evs' => keeps_entries w ev /\ safe_trace (apply_event ev w) evs'
  end.

(** ** The search endpoint as values *)

Section SearchValues.

Variable E : env.

(** The dictionary built for one [doc], as a value. *)
Definition hydrate (d : rdoc) : outcome item :=
  match d !! "image_id" with
  | None => Raise (AttributeError "image_id")
  | Some image_id =>
      match match d !! "__score" with
            | None => Ok 0%float
            | Some s =>
                match py_float E s with
                | Some x => Ok x
                | None => Raise (ValueError "could not convert string to float")
                end
            end with
      | Raise e => Raise e
      | Ok score =>
          match d !! "title" with
          | None => Raise (AttributeError "title")
          | Some title =>
              match d !! "url" with
              | None => Raise (AttributeError "url")
              | Some url =>
                  match d !! "tags" with
                  | None => Raise (AttributeError "tags")
                  | Some tags =>
                      Ok (Item image_id score (py_or title "") (py_or url "")
                               (if truthy tags then split_ws tags else []))
                  end
              end
          end
      end
  end.

Fixpoint hydrate_all (docs : list rdoc) : outcome (list item) :=
  match docs with
  | [] => Ok []
  | d :: docs' =>
      match hydrate d with
      | Raise e => Raise e
      | Ok it =>
          match hydrate_all docs' with
          | Raise e => Raise e
          | Ok its => Ok (it :: its)
          end
      end
  end.

(** The string given to the embedder and the state it is given in; [None]
    when the request carries neither text nor image. *)
Definition query_source (query_text : option string) (query_image : option bytes)
    (w : world) : option (string * world) :=
  if truthy (default "" query_text) then Some (default "" query_text, w)
  else match query_image with
       | Some data => Some ("/tmp/query.img", apply_event (FileWrite "/tmp/query.img" data) w)
       | None => None
       end.

(** What the inner [try] block returns for a query vector. *)
Definition knn_results (top_k : Z) (q : list float) (w : world) : list item :=
  match ft_search E (image_vectors w) (knn_query top_k) q with
  | Raise _ => []
  | Ok docs =>
      match hydrate_all docs with
      | Raise _ => []
      | Ok items => items
      end
  end.

Definition http_500 (e : exn) : exn := HTTPException 500 (str_exc E e).

End SearchValues.

(** [float(doc.__dict__.get('__score', 0))] as a value: [None] when [float]
    raises. *)
Definition score_attribute (E : env) (d : rdoc) : option float :=
  match d !! "__score" with
  | None => Some 0%float
  | Some s => py_float E s
  end.

(** The embedder of [E] cannot be loaded, or raises on every call. *)
Definition embedder_always_fails (E : env) : Prop :=
  is_Some (st_load E) \/ forall files s, exists e, st_encode E files s = Raise e.


(** The status writes a request may make: uploads insert ['pending'] rows,
    the task sets the status of its own image to ['indexed']. *)
Definition status_write_of (rq : request) (ev : event) : Prop :=
  match ev with
  | SqlInsert _ r =>
      row_status r = "pending" /\ exists f data title tags, rq = Upload f data title tags
  | SqlUpdateStatus i st =>
      st = "indexed" /\ exists j, rq = Task j /\ i = job_image_id j
  | _ => True
  end.

(** Any sequence of requests and task runs, each with what the outside
    answers during it. *)
Fixpoint serve (rs : list (env * request)) (w : world) : world :=
  match rs with
  | [] => w
  | (E, rq) :: rs' => serve rs' (handle E rq w)
  end.

(** The same, without the request. *)
Definition status_write_ok (ev : event) : Prop :=
  match ev with
  | SqlInsert _ r => row_status r = "pending"
  | SqlUpdateStatus _ st => st = "indexed"
  | _ => True
  end.

(** The two statuses the code writes. *)
Definition known_status (st : string) : Prop := st = "pending" \/ st = "indexed".

(** ** Concrete environments, for running the model *)

Module Sample.

(** Division by the L2 norm in IEEE arithmetic (binary64 here, where numpy
    computes in binary32): a zero norm gives [nan], not an exception. *)
Definition l2_norm (x : list float) : float :=
  PrimFloat.sqrt (foldl (fun acc a => PrimFloat.add acc (PrimFloat.mul a a)) 0%float x).

Definition l2_normalize (x : list float) : list float :=
  map (fun a => PrimFloat.div a (l2_norm x)) x.

(** An embedder that reads the file at the path it is given, and embeds any
    other string as text. *)
Fixpoint float_of_nat (n : nat) : float :=
  match n with
  | O => 0%float
  | S n' => PrimFloat.add 1%float (float_of_nat n')
  end.

Definition embed_bytes (data : bytes) : list float :=
  [float_of_nat (length data); 4%float].

Definition embed (files : gmap string bytes) (s : string) : outcome (list float) :=
  match files !! s with
  | Some data => Ok (embed_bytes data)
  | None => Ok [float_of_nat (String.length s); 0%float]
  end.

Definition str_of (e : exn) : string :=
  match e with
  | HTTPException c d => pretty c +:+ ": " +:+ d
  | TypeError m | AttributeError m | ValueError m | S3Error m => m
  | LibraryError _ m => m
  end.

Definition parse_score (s : string) : option float :=
  if String.eqb s "0.25" then Some 0.25%float
  else if String.eqb s "1" then Some 1%float
  else None.

(** Every call succeeds; [add_document] overwrites; the KNN query answers
    with [reply]. *)
Definition env_up (reply : list rdoc) : env :=
  Env "id-1" 1000 (fun _ => "/tmp/tmpa") None None (fun _ _ _ => None)
      (fun _ _ _ => Ok reply) None None false embed l2_normalize parse_score str_of
      (fun _ => None) None (fun _ _ => Ok []).


(** The embedder raises on every call. *)
Definition env_embedder_down : env :=
  Env "id-1" 1000 (fun _ => "/tmp/tmpc") None None (fun _ _ _ => None)
      (fun _ _ _ => Ok []) None None false
      (fun _ _ => Raise (LibraryError "RuntimeError" "embedder unavailable"))
      l2_normalize parse_score str_of (fun _ => None) None (fun _ _ => Ok []).

(** The KNN query raises. *)
Definition env_index_down : env :=
  Env "id-1" 1000 (fun _ => "/tmp/tmpe") None None (fun _ _ _ => None)
      (fun _ _ _ => Raise (LibraryError "ConnectionError" "redis unreachable"))
      None None false embed l2_normalize parse_score str_of
      (fun _ => None) None (fun _ _ => Ok []).

Definition png : bytes := [Byte.x89; Byte.x50; Byte.x4e].

Definition job1 : job := Job "id-1" "similarity/id-1.png" "cat" (Some ["pet"; "cat"]).

(** The state right after [job1]'s image was uploaded. *)
Definition uploaded : world :=
  snd (upload_image (env_up []) (Some "cat.png") png "cat" "pet, cat" fresh_world).

Definition hit : rdoc :=
  <["image_id" := "id-1"]> (<["title" := "cat"]> (<["url" := "similarity/id-1.png"]>
    (<["tags" := "pet cat"]> (<["__embedding_score" := "0.25"]> ∅)))).

End Sample.

(** * The rest of the module *)

(** ** [minio_client]: the endpoint string *)

(** [c in s] for a one-character [c]. *)
Fixpoint contains (c : ascii) (s : string) : bool :=
  match s with
  | EmptyString => false
  | String a s' => Ascii.eqb a c || contains c s'
  end.

(** [s.count(c)] *)
Fixpoint count_char (c : ascii) (s : string) : nat :=
  match s with
  | EmptyString => O
  | String a s' => if Ascii.eqb a c then S (count_char c s') else count_char c s'
  end.

(** The first two lines of [minio_client]:
    [host, port = E.split(":") if ":" in E else (E, "9000")] and
    [endpoint = f"{host}:{port}"]; unpacking anything but two values is a
    [ValueError]. *)
Definition minio_endpoint (MINIO_ENDPOINT : string) : outcome string :=
  match (if contains ":" MINIO_ENDPOINT
         then split_sep ":" MINIO_ENDPOINT
         else [MINIO_ENDPOINT; "9000"]) with
  | [host; port] => Ok (host +:+ ":" +:+ port)
  | [] | [_] => Raise (ValueError "not enough values to unpack (expected 2)")
  | _ => Raise (ValueError "too many values to unpack (expected 2)")
  end.

(** ** numpy's normalization

    [np_normalize] of an [env] stands for three lines of the code:
    [x = emb.astype("float32")], [x = x / np.linalg.norm(x, axis=1,
    keepdims=True)] and [x[0].tolist()].  In IEEE binary32 (24 bits of
    precision, exponents below 128) they are the following function.  numpy
    computes the norm as [sqrt(add.reduce(x * x))]; its reduction adds from
    left to right for rows of fewer than eight numbers. *)

(** [x.astype("float32")] of one number: rounding to the nearest binary32
    value, ties to even; overflow gives an infinity. *)
Definition astype_float32 (x : float) : spec_float :=
  match Prim2SF x with
  | S754_finite s m e => binary_round 24 128 s m e
  | v => v
  end.

(** [add.reduce(x * x)] *)
Definition sum_squares32 (x : list spec_float) : spec_float :=
  fold_left (fun acc a => SFadd 24 128 acc (SFmul 24 128 a a)) x (S754_zero false).

(** [np.linalg.norm(x)] *)
Definition norm32 (x : list spec_float) : spec_float :=
  SFsqrt 24 128 (sum_squares32 x).

(** [x / n] *)
Definition divide32 (n : spec_float) (x : list spec_float) : list spec_float :=
  map (fun a => SFdiv 24 128 a n) x.

(** The three lines together; [tolist] gives Python floats, which hold every
    binary32 value exactly. *)
Definition np_normalize32 (x : list float) : list float :=
  let x32 := map astype_float32 x in
  map SF2Prim (divide32 (norm32 x32) x32).

Definition is_zero32 (a : spec_float) : bool :=
  match a with
  | S754_zero _ => true
  | _ => false
  end.


(** ** Vocabulary of the further statements *)

(** The state [w] with the table [t] in place of its own. *)
Definition with_table (t : gmap string row) (w : world) : world :=
  World (blobs w) (fs w) t (image_vectors w) (queue w) (classifier_loaded w) (log w).

(** [s] begins with a white-space character. *)
Definition starts_with_space (s : string) : bool :=
  match leading_space s with
  | Some _ => true
  | None => false
  end.

(** A white-space character occurs in [s]. *)
Fixpoint has_space (s : string) : bool :=
  match s with
  | EmptyString => false
  | String c s' => starts_with_space s || has_space s'
  end.

(** [s] ends with a white-space character: some non-empty end of it is
    made of white space only. *)
Fixpoint ends_with_space (s : string) : bool :=
  match s with
  | EmptyString => false
  | String c s' => all_space s || ends_with_space s'
  end.

(** A string without white space at either end. *)
Definition trimmed (s : string) : Prop :=
  starts_with_space s = false /\ ends_with_space s = false.

(** A tag as [upload_image] keeps it: not empty, no white space at either
    end, no comma. *)
Definition clean_tag (t : string) : Prop :=
  t <> "" /\ trimmed t /\ ~ In ","%char (list_ascii_of_string t).

(** A non-empty string without any white space. *)
Definition word (t : string) : Prop := t <> "" /\ has_space t = false.

(** What [upload_image] computes from its arguments. *)
Definition upload_ext (f : string) : string := py_or (snd (splitext f)) ".jpg".

Definition upload_key (E : env) (f : string) : string :=
  "similarity/" +:+ uuid4 E +:+ upload_ext f.

Definition upload_tags (tags : string) : list string :=
  List.filter truthy (map strip (split_sep "," tags)).

Definition upload_row (E : env) (f title tags : string) : row :=
  Row title (match upload_tags tags with [] => None | _ => Some (upload_tags tags) end)
      (upload_key E f) "pending" (pg_now E).

Definition upload_job (E : env) (f title tags : string) : job :=
  Job (uuid4 E) (upload_key E f) title (Some (upload_tags tags)).

(** The bucket, the table, the index and the queue are the same. *)
Definition same_stores (w1 w2 : world) : Prop :=
  blobs w1 = blobs w2 /\ sim_images w1 = sim_images w2 /\
  image_vectors w1 = image_vectors w2 /\ queue w1 = queue w2.

(** The columns of a row that no statement of the code updates. *)
Definition row_meta (r : row) : string * option (list string) * string * Z :=
  (row_title r, row_tags r, row_url r, row_uploaded_at r).

(** The writes each kind of request can make. *)
Definition event_of (rq : request) (ev : event) : Prop :=
  match rq, ev with
  | Upload _ _ _ _, (BlobPut _ _ | SqlInsert _ _ | Enqueue _) => True
  | SearchVector _ _ _, FileWrite p _ => p = "/tmp/query.img"
  | Classify _ _, ClassifierLoad => True
  | Task j, (FileWrite _ _ | SqlUpdateStatus _ _) => True
  | Task j, IndexAdd k _ => k = doc_key (job_image_id j)
  | _, _ => False
  end.

Definition is_load (ev : event) : bool :=
  match ev with
  | ClassifierLoad => true
  | _ => false
  end.

(** How often the classifier was loaded, by the log. *)
Definition loads (w : world) : nat := length (List.filter is_load (log w)).

(** Further environments. *)
Module Cases.

(** No call fails; the embedder and the replies are those of [Sample]. *)
Definition env_with (id : string) (minio pg broker : option exn) : env :=
  Env id 2000 (fun _ => "/tmp/tmpx") minio pg (fun _ _ _ => None)
      (fun _ _ _ => Ok []) broker None false Sample.embed Sample.l2_normalize
      Sample.parse_score Sample.str_of (fun _ => None) None (fun _ _ => Ok []).

Definition refused : exn := LibraryError "OperationalError" "connection refused".

(** The classifier cannot be loaded. *)
Definition env_no_classifier : env :=
  Env "id-3" 3000 (fun _ => "/tmp/tmpy") None None (fun _ _ _ => None)
      (fun _ _ _ => Ok []) None None false Sample.embed Sample.l2_normalize
      Sample.parse_score Sample.str_of (fun _ => None)
      (Some (LibraryError "OSError" "model not found")) (fun _ _ => Ok []).

(** A reply with one readable document and one without [title]. *)
Definition broken_hit : rdoc := delete "title" Sample.hit.




Definition data_error : exn :=
  LibraryError "DataError"
    "Invalid input of type: 'list'. Convert to a bytes, string, int or float first.".

(** The embedder answers with the vector [v], numpy computes in binary32,
    and the Redis client refuses the Python list it is given as [embedding]
    (and as [query_vector]), as redis-py does for every list. *)
Definition env_list_refused (v : list float) : env :=
  Env "id-1" 1000 (fun _ => "/tmp/tmpz") None None (fun _ _ _ => Some data_error)
      (fun _ _ _ => Raise data_error) None None false
      (fun _ _ => Ok v)
      np_normalize32 Sample.parse_score Sample.str_of
      (fun _ => None) None (fun _ _ => Ok []).

(** The package [sentence_transformers] is not installed. *)
Definition env_no_package : env :=
  Env "id-1" 1000 (fun _ => "/tmp/tmpw") None None (fun _ _ _ => None)
      (fun _ _ _ => Ok [])  None
      (Some (LibraryError "ModuleNotFoundError" "No module named 'sentence_transformers'"))
      true Sample.embed np_normalize32 Sample.parse_score Sample.str_of
      (fun _ => None) None (fun _ _ => Ok []).

(** U+00A0, the no-break space, in UTF-8. *)
Definition nbsp : string := String (ascii_of_N 194) (String (ascii_of_N 160) EmptyString).

End Cases.

(** * Properties *)

(** ** The string functions on examples *)

Example splitext_examples :
  splitext "cat.png" = ("cat", ".png") /\
  splitext "x.tar.gz" = ("x.tar", ".gz") /\
  splitext ".bashrc" = (".bashrc", "") /\
  splitext "a.b/c" = ("a.b/c", "") /\
  splitext "a/..x" = ("a/..x", "").
Proof. repeat split; reflexivity. Qed.

Example tag_list_example :
  List.filter truthy (map strip (split_sep "," " pet, cat ,,")) = ["pet"; "cat"] /\
  split_sep "," "" = [""] /\
  split_ws "  pet  cat " = ["pet"; "cat"] /\
  join " " ["pet"; "cat"] = "pet cat".
Proof. repeat split; reflexivity. Qed.

(** An upload, then a run of the task it queued. *)
Example upload_then_index :
  upload_image (Sample.env_up []) (Some "cat.png") Sample.png "cat" "pet, cat" fresh_world
    = (Ok ("id-1", "queued"), Sample.uploaded) /\
  queue Sample.uploaded = [Sample.job1] /\
  status_of Sample.uploaded "id-1" = Some "pending" /\
  fst (run_job (Sample.env_up []) Sample.job1 Sample.uploaded) = Ok true /\
  status_of (snd (run_job (Sample.env_up []) Sample.job1 Sample.uploaded)) "id-1"
    = Some "indexed".
Proof. repeat split; vm_compute; reflexivity. Qed.

(** ** Writes and their replay *)

Lemma replay_app (a b : list event) (w : world) :
  replay (a ++ b) w = replay b (replay a w).
Proof. unfold replay. apply foldl_app. Qed.

Lemma log_apply_event (ev : event) (w : world) :
  log (apply_event ev w) = log w ++ [ev].
Proof. destruct ev; reflexivity. Qed.

Lemma log_replay (evs : list event) (w : world) :
  log (replay evs w) = log w ++ evs.
Proof.
  revert w. induction evs as [|ev evs IH]; intros w; simpl.
  - by rewrite app_nil_r.
  - rewrite IH, log_apply_event, <- app_assoc. reflexivity.
Qed.

(** The writes a computation adds are determined by the two logs. *)
Lemma replay_inj (a b : list event) (w : world) :
  replay a w = replay b w -> a = b.
Proof.
  intros H. apply (f_equal log) in H. rewrite !log_replay in H.
  by apply app_inv_head in H.
Qed.

Lemma observations_last (evs : list event) (w : world) :
  last (observations w evs) = Some (replay evs w).
Proof.
  revert w. induction evs as [|ev evs IH]; intros w; [reflexivity|].
  simpl. specialize (IH (apply_event ev w)).
  destruct (observations (apply_event ev w) evs) eqn:Ho; [discriminate|].
  exact IH.
Qed.

Lemma observations_app (a b : list event) (w : world) :
  observations w (a ++ b) = observations w a ++ tail (observations (replay a w) b).
Proof.
  revert w. induction a as [|ev a IH]; intros w; simpl.
  - destruct b; reflexivity.
  - by rewrite IH.
Qed.

(** ** The runs of the task

    The function [run_job] follows one of the runs of [task_run]. *)
Lemma run_job_task_run (E : env) (j : job) (w : world) :
  exists res evs, run_job E j w = (res, replay evs w) /\ task_run E j w res evs.
Proof.
  set (tmp_path := tmp_stem E (fs w) +:+ ".img").
  unfold run_job, compute_and_index, NamedTemporaryFile, fget_object,
    SentenceTransformer, encode, add_document, execute, check, emit, raise,
    ret, bind.
  fold tmp_path.
  destruct (import_fault E) as [e|] eqn:Himport; simpl.
  { exists (Raise e), []. split; [reflexivity|]. by constructor. }
  destruct (minio_fault E) as [e|] eqn:Hminio; simpl.
  { exists (Raise e), [FileWrite tmp_path []].
    split; [reflexivity|]. by constructor. }
  destruct (blobs w !! job_object_key j) as [data|] eqn:Hblob; simpl.
  2:{ exists (Raise (S3Error "NoSuchKey")), [FileWrite tmp_path []].
      split; [reflexivity|]. by constructor. }
  destruct (st_load E) as [e|] eqn:Hload; simpl.
  { exists (Raise e), [FileWrite tmp_path []; FileWrite tmp_path data].
    split; [reflexivity|]. by constructor. }
  destruct (st_encode E _ _) as [emb|e] eqn:Henc; simpl.
  2:{ exists (Raise e), [FileWrite tmp_path []; FileWrite tmp_path data].
      split; [reflexivity|]. by constructor. }
  destruct (redis_add_fault E _ _ _) as [e|] eqn:Hadd; simpl.
  { exists (Raise e), [FileWrite tmp_path []; FileWrite tmp_path data].
    split; [reflexivity|]. by eapply run_add_fault. }
  destruct (pg_fault E) as [e|] eqn:Hpg; simpl.
  { exists (Raise e),
      [FileWrite tmp_path []; FileWrite tmp_path data;
       IndexAdd (doc_key (job_image_id j)) (task_doc E j emb)].
    split; [reflexivity|]. by eapply run_update_fault. }
  exists (Ok true),
    [FileWrite tmp_path []; FileWrite tmp_path data;
     IndexAdd (doc_key (job_image_id j)) (task_doc E j emb);
     SqlUpdateStatus (job_image_id j) "indexed"].
  split; [reflexivity|]. by eapply run_done.
Qed.

(** ** Indexed records have an index entry *)

Lemma doc_key_inj (a b : string) : doc_key a = doc_key b -> a = b.
Proof. unfold doc_key. simpl. intros H. by injection H. Qed.

Lemma apply_event_keeps (ev : event) (w : world) :
  indexed_has_entry w -> keeps_entries w ev -> indexed_has_entry (apply_event ev w).
Proof.
  intros Hinv Hev i r. destruct ev as [k data|p data|i' r'|i' st|k d|j'|]; simpl;
    try (apply Hinv).
  - unfold insert_do_nothing. destruct (sim_images w !! i') eqn:Hi'; [apply Hinv|].
    destruct (decide (i' = i)) as [->|Hne].
    + rewrite lookup_insert_eq. intros [= <-] Hst. by destruct Hev.
    + rewrite lookup_insert_ne by done. apply Hinv.
  - unfold update_status. destruct (decide (i' = i)) as [->|Hne].
    + rewrite lookup_alter_eq. destruct (sim_images w !! i) as [r0|] eqn:Hi; [|done].
      simpl. intros [= <-] Hst. simpl in Hst. by apply Hev.
    + rewrite lookup_alter_ne by done. apply Hinv.
  - simpl in Hev. intros Hi Hst. destruct (decide (k = doc_key i)) as [->|Hne].
    + rewrite lookup_insert_eq. exists d. split; [done|].
      symmetry. by apply doc_key_inj.
    + rewrite lookup_insert_ne by done. by eapply Hinv.
Qed.

Lemma safe_trace_observations (evs : list event) (w : world) :
  indexed_has_entry w -> safe_trace w evs ->
  Forall indexed_has_entry (observations w evs).
Proof.
  revert w. induction evs as [|ev evs IH]; intros w Hinv Hsafe; simpl.
  - by constructor.
  - destruct Hsafe as [Hev Hsafe]. constructor; [done|].
    apply IH; [|done]. by apply apply_event_keeps.
Qed.

Lemma safe_trace_app (a b : list event) (w : world) :
  safe_trace w a -> safe_trace (replay a w) b -> safe_trace w (a ++ b).
Proof.
  revert w. induction a as [|ev a IH]; intros w Ha Hb; simpl in *; [done|].
  destruct Ha as [Hev Ha]. split; [done|]. by apply IH.
Qed.

Lemma task_run_safe (E : env) (j : job) (w : world) res evs :
  task_run E j w res evs -> safe_trace w evs.
Proof.
  destruct 1; simpl; repeat split; try done.
  intros _. eexists. split; [apply lookup_insert_eq|reflexivity].
Qed.

(** In a run, the status write comes after the index write. *)
Lemma task_run_order (E : env) (j : job) (w : world) res evs :
  task_run E j w res evs ->
  forall (n : nat) i st, evs !! n = Some (SqlUpdateStatus i st) ->
    i = job_image_id j /\ st = "indexed" /\
    exists (m : nat) d, (m < n)%nat /\
      evs !! m = Some (IndexAdd (doc_key i) d) /\ doc_image_id d = i.
Proof.
  destruct 1; intros n i st Hn;
    repeat (destruct n as [|n]; simpl in Hn; try discriminate).
  injection Hn as <- <-. split; [done|]. split; [done|].
  exists 2%nat, (task_doc E j emb). split; [lia|]. split; reflexivity.
Qed.

(** C1. In every run of the indexing task the document under
    [img:<image_id>] is written before the record's status becomes
    ['indexed'], and a failed index write leaves the status alone: if every
    indexed record has its entry before the run, then so it is at every
    state the run goes through, and after a run that returned normally the
    entry of this job's image is in the index. *)
Theorem index_written_before_status (E : env) (j : job) (w : world) :
  indexed_has_entry w ->
  exists evs,
    snd (run_job E j w) = replay evs w /\
    Forall indexed_has_entry (observations w evs) /\
    (forall (n : nat) i st, evs !! n = Some (SqlUpdateStatus i st) ->
       i = job_image_id j /\ st = "indexed" /\
       exists (m : nat) d, (m < n)%nat /\
         evs !! m = Some (IndexAdd (doc_key i) d) /\ doc_image_id d = i) /\
    (forall b, fst (run_job E j w) = Ok b ->
       (exists d, image_vectors (snd (run_job E j w)) !! doc_key (job_image_id j) = Some d /\
                  doc_image_id d = job_image_id j) /\
       status_of (snd (run_job E j w)) (job_image_id j)
         = (fun _ => "indexed") <$> status_of w (job_image_id j)).
Proof.
  intros Hinv. destruct (run_job_task_run E j w) as (res & evs & Hrun & Htr).
  exists evs. rewrite Hrun. simpl. split; [done|]. split.
  { apply safe_trace_observations; [done|]. by eapply task_run_safe. }
  split; [by eapply task_run_order|].
  intros b ->. inversion Htr; subst. simpl. split.
  - eexists. split; [apply lookup_insert_eq|reflexivity].
  - unfold status_of, update_status. simpl. rewrite lookup_alter_eq.
    by destruct (sim_images w !! job_image_id j).
Qed.

Lemma index_written_before_status_witness :
  indexed_has_entry Sample.uploaded /\
  exists evs,
    snd (run_job (Sample.env_up []) Sample.job1 Sample.uploaded)
      = replay evs Sample.uploaded /\
    Forall indexed_has_entry (observations Sample.uploaded evs).
Proof.
  assert (Hinv : indexed_has_entry Sample.uploaded).
  { intros i r Hi Hst. exfalso.
    destruct (decide (i = "id-1")) as [->|Hne].
    - vm_compute in Hi. injection Hi as <-. discriminate Hst.
    - change (sim_images Sample.uploaded) with
        (<["id-1" := Row "cat" (Some ["pet"; "cat"]) "similarity/id-1.png" "pending" 1000]>
           (∅ : gmap string row)) in Hi.
      rewrite lookup_insert_ne in Hi by done. by rewrite lookup_empty in Hi. }
  split; [exact Hinv|].
  destruct (index_written_before_status (Sample.env_up []) Sample.job1 Sample.uploaded Hinv)
    as (evs & Hrun & Hobs & _).
  exists evs. split; [exact Hrun | exact Hobs].
Defined.

(** ** The search endpoint in closed form *)

Section Search.

Variable E : env.

Lemma result_of_doc_hydrate (d : rdoc) (w : world) :
  result_of_doc E d w = (hydrate E d, w).
Proof.
  unfold result_of_doc, hydrate, getattr, doc_score, bind, ret, raise.
  destruct (d !! "image_id"); [|reflexivity].
  destruct (d !! "__score") as [sc|]; [destruct (py_float E sc); [|reflexivity]|];
    (destruct (d !! "title"); [|reflexivity]);
    (destruct (d !! "url"); [|reflexivity]);
    (destruct (d !! "tags"); reflexivity).
Qed.

Lemma mapM_hydrate_all (docs : list rdoc) (w : world) :
  mapM (result_of_doc E) docs w = (hydrate_all E docs, w).
Proof.
  induction docs as [|d docs IH]; [reflexivity|].
  simpl. unfold bind at 1. rewrite result_of_doc_hydrate.
  destruct (hydrate E d); [|reflexivity].
  unfold bind at 1. rewrite IH. by destruct (hydrate_all E docs).
Qed.

Lemma search_vector_closed (query_text : option string)
    (query_image : option bytes) (top_k : Z) (w : world) :
  search_vector E query_text query_image top_k w =
  match st_load E with
  | Some e => (Raise (http_500 E e), w)
  | None =>
      match query_source query_text query_image w with
      | None =>
          (Raise (http_500 E (HTTPException 400 "Provide query_text or query_image")), w)
      | Some (s, w') =>
          match st_encode E (fs w') s with
          | Raise e => (Raise (http_500 E e), w')
          | Ok q => (Ok (knn_results E top_k (np_normalize E q) w'), w')
          end
      end
  end.
Proof.
  unfold search_vector, query_source, knn_results, http_500, try_except,
    SentenceTransformer, encode, search, check, emit, raise, ret, bind.
  assert (Hi : import_fault E = None \/ import_fault E = st_load E)
    by (unfold import_fault; destruct (st_at_import E); auto).
  destruct (st_load E) as [e0|].
  { by destruct Hi as [-> | ->]. }
  assert (import_fault E = None) as -> by (by destruct Hi).
  destruct (truthy (default "" query_text)).
  - destruct (st_encode E (fs w) _); [|reflexivity].
    destruct (ft_search E _ _ _) as [docs|]; [|reflexivity].
    rewrite mapM_hydrate_all. by destruct (hydrate_all E docs).
  - destruct query_image as [data|]; [|reflexivity].
    destruct (st_encode E _ _); [|reflexivity].
    destruct (ft_search E _ _ _) as [docs|]; [|reflexivity].
    rewrite mapM_hydrate_all. by destruct (hydrate_all E docs).
Qed.

End Search.

(** ** Failures of the search endpoint *)

(** C4, as stated, fails: with an embedder that raises, a text query is
    answered with an HTTP 500 error, not with an empty result list. *)
Lemma search_embedder_failure_is_visible :
  fst (search_vector Sample.env_embedder_down (Some "cat") None 10 Sample.uploaded)
    = Raise (HTTPException 500 "embedder unavailable") /\
  fst (search_vector Sample.env_embedder_down (Some "cat") None 10 Sample.uploaded)
    <> Ok [].
Proof. split; [vm_compute; reflexivity | vm_compute; discriminate]. Qed.

(** C4, amended.  For a query that carries text or an image: when the model
    loads and the embedder returns a vector, a KNN query that raises (and just
    as well a reply whose documents cannot be read) gives the empty result
    list; when loading the model or the embedder raises [e], the caller gets
    [HTTPException(500, str(e))]. *)
Theorem search_failure_policy (E : env) (query_text : option string)
    (query_image : option bytes) (top_k : Z) (w : world) (s : string) (w' : world) :
  query_source query_text query_image w = Some (s, w') ->
  (forall e, st_load E = Some e ->
     search_vector E query_text query_image top_k w = (Raise (http_500 E e), w)) /\
  (forall e, st_load E = None -> st_encode E (fs w') s = Raise e ->
     search_vector E query_text query_image top_k w = (Raise (http_500 E e), w')) /\
  (forall q e, st_load E = None -> st_encode E (fs w') s = Ok q ->
     ft_search E (image_vectors w') (knn_query top_k) (np_normalize E q) = Raise e ->
     search_vector E query_text query_image top_k w = (Ok [], w')) /\
  (forall q docs e, st_load E = None -> st_encode E (fs w') s = Ok q ->
     ft_search E (image_vectors w') (knn_query top_k) (np_normalize E q) = Ok docs ->
     hydrate_all E docs = Raise e ->
     search_vector E query_text query_image top_k w = (Ok [], w')).
Proof.
  intros Hsrc. rewrite search_vector_closed, Hsrc. repeat split.
  - by intros e ->.
  - by intros e -> ->.
  - intros q e -> ->. unfold knn_results. by intros ->.
  - intros q docs e -> ->. unfold knn_results. by intros -> ->.
Qed.

Lemma search_failure_policy_witness :
  query_source (Some "cat") None Sample.uploaded = Some ("cat", Sample.uploaded) /\
  search_vector Sample.env_index_down (Some "cat") None 10 Sample.uploaded
    = (Ok [], Sample.uploaded) /\
  search_vector Sample.env_embedder_down (Some "cat") None 10 Sample.uploaded
    = (Raise (http_500 Sample.env_embedder_down
                (LibraryError "RuntimeError" "embedder unavailable")),
       Sample.uploaded).
Proof.
  assert (Hsrc : query_source (Some "cat") None Sample.uploaded
                 = Some ("cat", Sample.uploaded)) by reflexivity.
  split; [exact Hsrc|]. split.
  - destruct (search_failure_policy Sample.env_index_down (Some "cat") None 10
                Sample.uploaded "cat" Sample.uploaded Hsrc) as (_ & _ & Hknn & _).
    eapply Hknn; reflexivity.
  - destruct (search_failure_policy Sample.env_embedder_down (Some "cat") None 10
                Sample.uploaded "cat" Sample.uploaded Hsrc) as (_ & Henc & _).
    apply Henc; reflexivity.
Defined.

(** C5.  A search with neither text nor image (an empty text counts as no
    text): the [HTTPException(400, ...)] raised for it is caught by the outer
    [except Exception] and reaches the caller as [HTTPException(500, ...)];
    a model that fails to load gives a 500 as well. *)
Theorem search_without_query_is_500 (E : env) (top_k : Z) (w : world) :
  (exists e,
     search_vector E None None top_k w = (Raise (HTTPException 500 (str_exc E e)), w) /\
     (st_load E = None -> e = HTTPException 400 "Provide query_text or query_image")) /\
  search_vector E (Some "") None top_k w = search_vector E None None top_k w.
Proof.
  rewrite !search_vector_closed. unfold query_source, http_500. simpl. split; [|done].
  destruct (st_load E) as [e|].
  - exists e. split; [reflexivity|discriminate].
  - eexists. split; reflexivity.
Qed.

Lemma search_without_query_sample :
  search_vector (Sample.env_up []) None None 10 fresh_world
    = (Raise (HTTPException 500 "400: Provide query_text or query_image"), fresh_world).
Proof. vm_compute. reflexivity. Qed.

(** C6, as stated, fails: a request with both a text and an image is
    answered, with the hits of the text query. *)
Lemma search_with_both_is_answered :
  fst (search_vector (Sample.env_up [Sample.hit]) (Some "cat") (Some Sample.png) 10
         Sample.uploaded)
    = Ok [Item "id-1" 0%float "cat" "similarity/id-1.png" ["pet"; "cat"]].
Proof. vm_compute. reflexivity. Qed.

(** C6, amended.  When a non-empty text and an image are both supplied, the
    text is used and the image is ignored: the reply and the state are those
    of the same request without the image. *)
Theorem search_text_takes_precedence (E : env) (c : ascii) (text : string)
    (image : bytes) (top_k : Z) (w : world) :
  search_vector E (Some (String c text)) (Some image) top_k w
    = search_vector E (Some (String c text)) None top_k w.
Proof. rewrite !search_vector_closed. reflexivity. Qed.

(** ** The score of a hit *)

Lemma hydrate_score (E : env) (d : rdoc) (it : item) :
  hydrate E d = Ok it ->
  score_attribute E d = Some (item_score it) /\
  d !! "image_id" = Some (item_image_id it).
Proof.
  unfold hydrate, score_attribute.
  destruct (d !! "image_id") as [i|]; [|discriminate].
  destruct (d !! "__score") as [sc|]; [destruct (py_float E sc); [|discriminate]|];
    (destruct (d !! "title"); [|discriminate]);
    (destruct (d !! "url"); [|discriminate]);
    (destruct (d !! "tags"); [|discriminate]);
    intros [= <-]; done.
Qed.

Lemma hydrate_all_Forall2 (E : env) (docs : list rdoc) (items : list item) :
  hydrate_all E docs = Ok items ->
  Forall2 (fun d it => hydrate E d = Ok it) docs items.
Proof.
  revert items. induction docs as [|d docs IH]; intros items; simpl.
  - intros [= <-]. constructor.
  - destruct (hydrate E d) as [it|] eqn:Hd; [|discriminate].
    destruct (hydrate_all E docs) as [its|]; [|discriminate].
    intros [= <-]. constructor; [done|]. by apply IH.
Qed.

(** C10.  In every reply of the search endpoint, each hit comes from one
    document of the KNN reply, in order, and its score is what [float] makes
    of the document's attribute ['__score'], or 0.0 when the document has no
    such attribute.  Nothing else of the document and nothing of the query
    vector enters the score. *)
Theorem score_is_the_score_attribute (E : env) (query_text : option string)
    (query_image : option bytes) (top_k : Z) (w : world) (items : list item) :
  fst (search_vector E query_text query_image top_k w) = Ok items ->
  exists docs : list rdoc,
    Forall2 (fun d it =>
               match d !! "__score" with
               | None => item_score it = 0%float
               | Some s => py_float E s = Some (item_score it)
               end /\
               (forall d' : rdoc, d' !! "__score" = d !! "__score" ->
                  score_attribute E d' = Some (item_score it)))
            docs items /\
    (items = [] \/
     exists s w' q,
       query_source query_text query_image w = Some (s, w') /\
       st_encode E (fs w') s = Ok q /\
       ft_search E (image_vectors w') (knn_query top_k) (np_normalize E q) = Ok docs).
Proof.
  rewrite search_vector_closed.
  destruct (st_load E); [discriminate|].
  destruct (query_source query_text query_image w) as [[s w']|] eqn:Hsrc; [|discriminate].
  destruct (st_encode E (fs w') s) as [q|] eqn:Henc; [|discriminate].
  simpl. intros [= <-]. unfold knn_results.
  destruct (ft_search E _ _ _) as [docs|] eqn:Hknn.
  2:{ exists []. split; [constructor | by left]. }
  destruct (hydrate_all E docs) as [items|] eqn:Hall.
  2:{ exists []. split; [constructor | by left]. }
  exists docs. split.
  - eapply Forall2_impl; [by apply hydrate_all_Forall2|].
    intros d it Hd. apply hydrate_score in Hd as [Hsc _].
    split.
    + unfold score_attribute in Hsc. destruct (d !! "__score"); [done|].
      by injection Hsc.
    + intros d' Heq. unfold score_attribute in *. by rewrite Heq.
  - right. by exists s, w', q.
Qed.

Lemma score_is_the_score_attribute_witness :
  fst (search_vector
         (Sample.env_up [Sample.hit; <["__score" := "0.25"]> Sample.hit])
         (Some "cat") None 10 Sample.uploaded)
    = Ok [Item "id-1" 0%float "cat" "similarity/id-1.png" ["pet"; "cat"];
          Item "id-1" 0.25%float "cat" "similarity/id-1.png" ["pet"; "cat"]] /\
  exists docs : list rdoc,
    Forall2 (fun d it =>
               match d !! "__score" with
               | None => item_score it = 0%float
               | Some s => py_float
                             (Sample.env_up [Sample.hit; <["__score" := "0.25"]> Sample.hit]) s
                           = Some (item_score it)
               end)
            docs
            [Item "id-1" 0%float "cat" "similarity/id-1.png" ["pet"; "cat"];
             Item "id-1" 0.25%float "cat" "similarity/id-1.png" ["pet"; "cat"]].
Proof.
  assert (Hrun : fst (search_vector
         (Sample.env_up [Sample.hit; <["__score" := "0.25"]> Sample.hit])
         (Some "cat") None 10 Sample.uploaded)
    = Ok [Item "id-1" 0%float "cat" "similarity/id-1.png" ["pet"; "cat"];
          Item "id-1" 0.25%float "cat" "similarity/id-1.png" ["pet"; "cat"]])
    by (vm_compute; reflexivity).
  split; [exact Hrun|].
  destruct (score_is_the_score_attribute _ _ _ _ _ _ Hrun) as (docs & Hall & _).
  exists docs. eapply Forall2_impl; [exact Hall|]. by intros d it [H _].
Defined.

(** ** What a run of the task leaves behind *)

Section TaskEffects.

Variable E : env.
Variable j : job.
Variable w : world.

(** A run that raises wrote neither a status nor a job. *)
Lemma task_run_raise res evs :
  task_run E j w res evs ->
  forall e, res = Raise e ->
    blobs (replay evs w) = blobs w /\
    sim_images (replay evs w) = sim_images w /\
    queue (replay evs w) = queue w.
Proof. destruct 1; intros e0 Hres; try discriminate; done. Qed.

(** Whatever happens, a run touches neither the bucket nor the queue. *)
Lemma task_run_frame res evs :
  task_run E j w res evs ->
  blobs (replay evs w) = blobs w /\ queue (replay evs w) = queue w.
Proof. by destruct 1. Qed.

(** A run that stops at the embedder wrote files only. *)
Lemma task_run_embedder_down res evs :
  is_Some (st_load E) \/ (forall files s, exists e, st_encode E files s = Raise e) ->
  task_run E j w res evs ->
  (exists e, res = Raise e) /\
  image_vectors (replay evs w) = image_vectors w /\
  sim_images (replay evs w) = sim_images w.
Proof.
  intros Hdown Htr.
  destruct Htr; try (split; [by eexists|done]);
    (destruct Hdown as [[e' He']|Hdown]; [congruence|]);
    match goal with
    | H : st_encode E ?fl ?p = Ok _ |- _ =>
        destruct (Hdown fl p) as [e' He']; congruence
    end.
Qed.




End TaskEffects.

Lemma import_fault_load (E : env) (e : exn) :
  import_fault E = Some e -> st_load E = Some e.
Proof. unfold import_fault. by destruct (st_at_import E). Qed.

(** ** Retries *)

(** C2, as stated, fails: three deliveries with a failing embedder
    ([max_attempts = 3]) all raise, and the record is still ['pending'], not
    ['failed']. *)
Lemma failing_embedder_never_reaches_failed :
  embedder_always_fails Sample.env_embedder_down /\
  (exists e, fst (run_job Sample.env_embedder_down Sample.job1 Sample.uploaded) = Raise e) /\
  status_of (redeliver [Sample.env_embedder_down; Sample.env_embedder_down;
                        Sample.env_embedder_down] Sample.job1 Sample.uploaded) "id-1"
    = Some "pending" /\
  status_of (redeliver [Sample.env_embedder_down; Sample.env_embedder_down;
                        Sample.env_embedder_down] Sample.job1 Sample.uploaded) "id-1"
    <> Some "failed".
Proof.
  split; [right; intros files s; by eexists|]. split; [by eexists|].
  split; [vm_compute; reflexivity | vm_compute; discriminate].
Qed.

(** C2, amended.  A delivery whose embedder call fails raises, and writes
    no status, no index entry and no job; so after any number of such
    deliveries the table, the index, the bucket and the queue are what they
    were.  (A row has no attempt counter, and no status other than the one it
    had is written.) *)
Theorem failed_deliveries_change_nothing (Es : list env) (j : job) (w : world) :
  Forall embedder_always_fails Es ->
  Forall (fun E => forall w0, exists e, fst (run_job E j w0) = Raise e) Es /\
  sim_images (redeliver Es j w) = sim_images w /\
  image_vectors (redeliver Es j w) = image_vectors w /\
  blobs (redeliver Es j w) = blobs w /\
  queue (redeliver Es j w) = queue w /\
  status_of (redeliver Es j w) (job_image_id j) = status_of w (job_image_id j).
Proof.
  intros HEs. split.
  { eapply Forall_impl; [exact HEs|]. intros E HE w0.
    destruct (run_job_task_run E j w0) as (res & evs & Hrun & Htr).
    destruct (task_run_embedder_down E j w0 res evs HE Htr) as [[e ->] _].
    exists e. by rewrite Hrun. }
  assert (Hstores : sim_images (redeliver Es j w) = sim_images w /\
                    image_vectors (redeliver Es j w) = image_vectors w /\
                    blobs (redeliver Es j w) = blobs w /\
                    queue (redeliver Es j w) = queue w).
  { revert w. induction HEs as [|E Es HE _ IH]; intros w; [done|]. simpl.
    destruct (run_job_task_run E j w) as (res & evs & Hrun & Htr).
    destruct (task_run_embedder_down E j w res evs HE Htr) as (_ & Hidx & Hdb).
    destruct (task_run_frame E j w res evs Htr) as [Hbl Hq].
    rewrite Hrun. simpl. destruct (IH (replay evs w)) as (-> & -> & -> & ->).
    done. }
  destruct Hstores as (Hdb & Hidx & Hbl & Hq).
  repeat split; try done. unfold status_of. by rewrite Hdb.
Qed.

Lemma failed_deliveries_change_nothing_witness :
  Forall embedder_always_fails [Sample.env_embedder_down; Sample.env_embedder_down] /\
  sim_images (redeliver [Sample.env_embedder_down; Sample.env_embedder_down]
                Sample.job1 Sample.uploaded)
    = sim_images Sample.uploaded.
Proof.
  assert (Hdown : Forall embedder_always_fails
                    [Sample.env_embedder_down; Sample.env_embedder_down]).
  { repeat (constructor; [right; intros files s; by eexists|]). constructor. }
  split; [exact Hdown|].
  destruct (failed_deliveries_change_nothing _ Sample.job1 Sample.uploaded Hdown)
    as (_ & Hdb & _).
  exact Hdb.
Defined.

(** ** Redelivery *)





(** ** Normalization in binary32 *)

Lemma sum_squares32_zero (x : list spec_float) :
  Forall (fun a => is_zero32 a = true) x -> sum_squares32 x = S754_zero false.
Proof.
  unfold sum_squares32. induction 1 as [|a x Ha _ IH]; [reflexivity|].
  destruct a as [s| | |]; try discriminate.
  change (fold_left (fun acc a => SFadd 24 128 acc (SFmul 24 128 a a)) x
            (SFadd 24 128 (S754_zero false) (SFmul 24 128 (S754_zero s) (S754_zero s)))
          = S754_zero false).
  by destruct s.
Qed.

(** A vector that is zero in binary32 comes back as [nan] in every place:
    numpy divides 0 by 0 without raising. *)
Lemma np_normalize32_zero (x : list float) :
  Forall (fun a => is_zero32 (astype_float32 a) = true) x ->
  Forall (fun a => a = nan) (np_normalize32 x).
Proof.
  intros Hx. unfold np_normalize32, norm32, divide32.
  rewrite sum_squares32_zero by (by apply List.Forall_map).
  do 3 apply List.Forall_map. eapply Forall_impl; [exact Hx|].
  intros a Ha. simpl in *. destruct (astype_float32 a); try discriminate. reflexivity.
Qed.





(** The value the code computes for an embedding in range. *)
Example np_normalize32_3_4 :
  np_normalize32 [3%float; 4%float]
    = [0x1.333334p-1%float; 0x1.99999ap-1%float].
Proof. vm_compute. reflexivity. Qed.

(** ** Degenerate embeddings *)

(** C8, as stated, fails: when the embedder returns the zero vector, numpy
    divides without raising and the task goes on to [add_document] with
    [nan] in every coordinate.  The run ends with the client's [DataError],
    the error a vector that is not zero ends with; no retry is queued, and
    after three deliveries the record is still ['pending'], not ['failed']. *)
Lemma zero_vector_starts_no_failure_policy :
  np_normalize (Cases.env_list_refused [0%float; 0%float]) [0%float; 0%float]
    = [nan; nan] /\
  fst (run_job (Cases.env_list_refused [0%float; 0%float]) Sample.job1 Sample.uploaded)
    = Raise Cases.data_error /\
  fst (run_job (Cases.env_list_refused [3%float; 4%float]) Sample.job1 Sample.uploaded)
    = Raise Cases.data_error /\
  image_vectors (redeliver [Cases.env_list_refused [0%float; 0%float];
                            Cases.env_list_refused [0%float; 0%float];
                            Cases.env_list_refused [0%float; 0%float]]
                   Sample.job1 Sample.uploaded) !! "img:id-1" = None /\
  queue (redeliver [Cases.env_list_refused [0%float; 0%float];
                    Cases.env_list_refused [0%float; 0%float];
                    Cases.env_list_refused [0%float; 0%float]]
           Sample.job1 Sample.uploaded)
    = queue Sample.uploaded /\
  status_of (redeliver [Cases.env_list_refused [0%float; 0%float];
                        Cases.env_list_refused [0%float; 0%float];
                        Cases.env_list_refused [0%float; 0%float]]
               Sample.job1 Sample.uploaded) "id-1"
    = Some "pending" /\
  status_of (redeliver [Cases.env_list_refused [0%float; 0%float];
                        Cases.env_list_refused [0%float; 0%float];
                        Cases.env_list_refused [0%float; 0%float]]
               Sample.job1 Sample.uploaded) "id-1"
    <> Some "failed".
Proof.
  repeat split; try (vm_compute; reflexivity). vm_compute. discriminate.
Qed.

(** C8, amended.  The task does not look at the vector the embedder
    returns, and has no error or retry of its own for it: a vector that is
    zero in binary32 goes to [add_document] as [nan] in every coordinate,
    and for every vector the run is decided by the two writes that follow.
    If [add_document] and the status update go through, the task returns
    [True] with the document stored and the status ['indexed']; otherwise it
    ends with the exception of the call that failed, with the table and the
    queue as they were (no retry is scheduled and no status is written), and
    with the index as it was when [add_document] was the call that failed. *)
Theorem task_does_not_inspect_the_vector (E : env) (j : job) (w : world)
    (data : bytes) (emb : list float) :
  minio_fault E = None ->
  blobs w !! job_object_key j = Some data ->
  st_load E = None ->
  st_encode E (task_files E w data) (tmp_stem E (fs w) +:+ ".img") = Ok emb ->
  let d := task_doc E j emb in
  let add := redis_add_fault E (image_vectors w) (doc_key (job_image_id j)) d in
  (np_normalize E = np_normalize32 ->
   Forall (fun a => is_zero32 (astype_float32 a) = true) emb ->
   Forall (fun a => a = nan) (doc_embedding d)) /\
  (add = None -> pg_fault E = None ->
     fst (run_job E j w) = Ok true /\
     image_vectors (snd (run_job E j w)) !! doc_key (job_image_id j) = Some d /\
     status_of (snd (run_job E j w)) (job_image_id j)
       = (fun _ => "indexed") <$> status_of w (job_image_id j)) /\
  (forall e, fst (run_job E j w) = Raise e ->
     ((add = Some e /\ image_vectors (snd (run_job E j w)) = image_vectors w) \/
      (add = None /\ pg_fault E = Some e)) /\
     sim_images (snd (run_job E j w)) = sim_images w /\
     queue (snd (run_job E j w)) = queue w).
Proof.
  intros Hminio Hblob Hload Henc d add. split.
  { intros Hnp Hz. subst d. unfold task_doc. simpl. rewrite Hnp.
    by apply np_normalize32_zero. }
  destruct (run_job_task_run E j w) as (res & evs & Hrun & Htr).
  rewrite Hrun. simpl. subst d add.
  destruct Htr;
    try (match goal with
         | H : import_fault E = Some _ |- _ => apply import_fault_load in H
         end);
    try congruence;
    repeat match goal with
           | H1 : blobs w !! job_object_key j = Some ?a,
             H2 : blobs w !! job_object_key j = Some ?b |- _ =>
               assert (a = b) as -> by congruence; clear H1
           end;
    try congruence;
    repeat match goal with
           | H1 : st_encode E ?f ?p = Ok ?a, H2 : st_encode E ?f ?p = Ok ?b |- _ =>
               assert (a = b) as -> by congruence; clear H1
           end.
  - split; [congruence|]. intros e0 [= <-]. split; [by left|done].
  - split; [congruence|]. intros e0 [= <-]. split; [by right|done].
  - split; [|discriminate]. intros _ _. split; [done|]. split.
    + apply lookup_insert_eq.
    + unfold status_of. simpl. unfold update_status. rewrite lookup_alter_eq.
      by destruct (sim_images w !! job_image_id j).
Qed.

Lemma task_does_not_inspect_the_vector_witness :
  minio_fault (Cases.env_list_refused [0%float; 0%float]) = None /\
  blobs Sample.uploaded !! job_object_key Sample.job1 = Some Sample.png /\
  st_load (Cases.env_list_refused [0%float; 0%float]) = None /\
  st_encode (Cases.env_list_refused [0%float; 0%float])
    (task_files (Cases.env_list_refused [0%float; 0%float]) Sample.uploaded Sample.png)
    (tmp_stem (Cases.env_list_refused [0%float; 0%float]) (fs Sample.uploaded) +:+ ".img")
    = Ok [0%float; 0%float] /\
  Forall (fun a => a = nan)
    (doc_embedding (task_doc (Cases.env_list_refused [0%float; 0%float]) Sample.job1
                      [0%float; 0%float])) /\
  sim_images (snd (run_job (Cases.env_list_refused [0%float; 0%float])
                     Sample.job1 Sample.uploaded))
    = sim_images Sample.uploaded.
Proof.
  assert (Hblob : blobs Sample.uploaded !! job_object_key Sample.job1 = Some Sample.png)
    by (vm_compute; reflexivity).
  split; [reflexivity|]. split; [exact Hblob|].
  split; [reflexivity|]. split; [reflexivity|].
  destruct (task_does_not_inspect_the_vector (Cases.env_list_refused [0%float; 0%float])
              Sample.job1 Sample.uploaded Sample.png [0%float; 0%float]
              eq_refl Hblob eq_refl eq_refl) as (Hnan & _ & Hraise).
  split.
  - apply Hnan; [reflexivity|]. repeat constructor.
  - destruct (Hraise Cases.data_error) as (_ & Hdb & _); [vm_compute; reflexivity|].
    exact Hdb.
Defined.

(** ** The writes of every request *)

Lemma task_run_status_writes (E : env) (j : job) (w : world) res evs :
  task_run E j w res evs -> Forall (status_write_of (Task j)) evs.
Proof.
  destruct 1; repeat constructor. by exists j.
Qed.

Lemma handle_trace (E : env) (rq : request) (w : world) :
  exists evs,
    handle E rq w = replay evs w /\ safe_trace w evs /\
    Forall (status_write_of rq) evs.
Proof.
  destruct rq as [f data title tags|qt qi k|data k| |j]; simpl.
  - unfold upload_image, try_except, put_object, execute, delay, check, emit,
      raise, ret, bind.
    destruct f as [f|]; [|by exists []].
    destruct (minio_fault E); [by exists []|].
    destruct (pg_fault E).
    { eexists [BlobPut _ _]. split; [reflexivity|]. by repeat constructor. }
    destruct (broker_fault E).
    + eexists [BlobPut _ _; SqlInsert _ _]. split; [reflexivity|]. split.
      * simpl. by repeat split.
      * repeat constructor. by exists (Some f), data, title, tags.
    + eexists [BlobPut _ _; SqlInsert _ _; Enqueue _]. split; [reflexivity|]. split.
      * simpl. by repeat split.
      * repeat constructor. by exists (Some f), data, title, tags.
  - rewrite search_vector_closed. unfold query_source.
    destruct (st_load E); [by exists []|].
    destruct (truthy (default "" qt)).
    { exists []. by destruct (st_encode E (fs w) _). }
    destruct qi as [data|]; [|by exists []].
    exists [FileWrite "/tmp/query.img" data].
    destruct (st_encode E _ _); by repeat constructor.
  - unfold classify_image, try_except, get_image_classifier, lift, check, emit,
      raise, ret, bind.
    destruct (pil_open E data); [by exists []|].
    destruct (classifier_loaded w).
    { exists []. by destruct (clf_predict E data k). }
    destruct (clf_load E); [by exists []|].
    exists [ClassifierLoad]. destruct (clf_predict E data k); by repeat constructor.
  - by exists [].
  - destruct (run_job_task_run E j w) as (res & evs & Hrun & Htr).
    exists evs. rewrite Hrun. split; [done|]. split.
    + by eapply task_run_safe.
    + by eapply task_run_status_writes.
Qed.

Lemma status_write_of_ok (rq : request) (ev : event) :
  status_write_of rq ev -> status_write_ok ev.
Proof. destruct ev; simpl; tauto. Qed.

Lemma serve_trace (rs : list (env * request)) (w : world) :
  exists evs,
    serve rs w = replay evs w /\ safe_trace w evs /\ Forall status_write_ok evs.
Proof.
  revert w. induction rs as [|[E rq] rs IH]; intros w; simpl.
  - by exists [].
  - destruct (handle_trace E rq w) as (evs1 & -> & Hsafe1 & Hst1).
    destruct (IH (replay evs1 w)) as (evs2 & -> & Hsafe2 & Hst2).
    exists (evs1 ++ evs2). split; [by rewrite replay_app|]. split.
    + by apply safe_trace_app.
    + apply Forall_app. split; [|done].
      eapply Forall_impl; [exact Hst1|]. apply status_write_of_ok.
Qed.

(** From a fresh deployment on, every state any sequence of requests goes
    through has an index entry for each indexed record. *)
Lemma indexed_has_entry_always (rs : list (env * request)) :
  Forall indexed_has_entry
    (observations fresh_world (log (serve rs fresh_world))).
Proof.
  destruct (serve_trace rs fresh_world) as (evs & -> & Hsafe & _).
  rewrite log_replay. simpl. apply safe_trace_observations; [|done].
  intros i r. unfold fresh_world. simpl. by rewrite lookup_empty.
Qed.

(** ** Status values *)

Lemma apply_event_statuses (ev : event) (w : world) :
  status_write_ok ev ->
  (forall i r, sim_images w !! i = Some r -> known_status (row_status r)) ->
  forall i r, sim_images (apply_event ev w) !! i = Some r -> known_status (row_status r).
Proof.
  intros Hev Hw i r. destruct ev as [k data|p data|i' r'|i' st|k d|j'|]; simpl;
    try apply Hw.
  - unfold insert_do_nothing. destruct (sim_images w !! i'); [apply Hw|].
    destruct (decide (i' = i)) as [->|Hne].
    + rewrite lookup_insert_eq. intros [= <-]. by left.
    + rewrite lookup_insert_ne by done. apply Hw.
  - unfold update_status. destruct (decide (i' = i)) as [->|Hne].
    + rewrite lookup_alter_eq. destruct (sim_images w !! i); [|done].
      simpl. intros [= <-]. by right.
    + rewrite lookup_alter_ne by done. apply Hw.
Qed.

Lemma replay_statuses (evs : list event) (w : world) :
  Forall status_write_ok evs ->
  (forall i r, sim_images w !! i = Some r -> known_status (row_status r)) ->
  forall i r, sim_images (replay evs w) !! i = Some r -> known_status (row_status r).
Proof.
  revert w. induction evs as [|ev evs IH]; intros w Hevs Hw; [done|].
  inversion Hevs; subst. simpl. apply IH; [done|]. by apply apply_event_statuses.
Qed.

(** The status after a run of the task: set, whatever it was; the run does
    not read it. *)
Lemma run_job_status (E : env) (j : job) (w : world) :
  match run_job E j w with
  | (Ok _, w') =>
      status_of w' (job_image_id j) = (fun _ => "indexed") <$> status_of w (job_image_id j)
  | (Raise _, w') =>
      status_of w' (job_image_id j) = status_of w (job_image_id j)
  end.
Proof.
  destruct (run_job_task_run E j w) as (res & evs & -> & Htr).
  destruct Htr; try reflexivity.
  unfold status_of. simpl. unfold update_status. rewrite lookup_alter_eq.
  by destruct (sim_images w !! job_image_id j).
Qed.

(** The task does not read the table: with any other table in place of the
    one of [w], a run ends as it does in [w] and makes the same writes. *)
Lemma task_run_det (E : env) (j : job) (w : world) r1 evs1 r2 evs2 :
  task_run E j w r1 evs1 -> task_run E j w r2 evs2 -> r1 = r2 /\ evs1 = evs2.
Proof.
  destruct 1; destruct 1; try congruence;
    repeat match goal with
           | H1 : blobs w !! job_object_key j = Some ?a,
             H2 : blobs w !! job_object_key j = Some ?b |- _ =>
               assert (a = b) as -> by congruence; clear H2
           end;
    try congruence;
    repeat match goal with
           | H1 : st_encode E ?f ?p = Ok ?a, H2 : st_encode E ?f ?p = Ok ?b |- _ =>
               assert (a = b) as -> by congruence; clear H2
           end;
    try congruence; (split; [congruence|reflexivity]).
Qed.

Lemma task_run_with_table (E : env) (j : job) (w : world) (t : gmap string row) res evs :
  task_run E j w res evs -> task_run E j (with_table t w) res evs.
Proof.
  destruct 1;
    [eapply (run_fetch_fault E j (with_table t w))
    |eapply (run_no_blob E j (with_table t w))
    |eapply (run_load_fault E j (with_table t w))
    |eapply (run_encode_fault E j (with_table t w))
    |eapply (run_add_fault E j (with_table t w))
    |eapply (run_update_fault E j (with_table t w))
    |eapply (run_done E j (with_table t w))
    |eapply (run_import_fault E j (with_table t w))]; eassumption.
Qed.

Lemma run_job_with_table (E : env) (j : job) (w : world) (t : gmap string row) :
  exists res evs,
    run_job E j w = (res, replay evs w) /\
    run_job E j (with_table t w) = (res, replay evs (with_table t w)) /\
    task_run E j (with_table t w) res evs.
Proof.
  destruct (run_job_task_run E j w) as (res & evs & Hrun & Htr).
  destruct (run_job_task_run E j (with_table t w)) as (res' & evs' & Hrun' & Htr').
  apply (task_run_with_table E j w t) in Htr.
  destruct (task_run_det _ _ _ _ _ _ _ Htr' Htr) as [-> ->].
  by exists res, evs.
Qed.

(** C9.  From a fresh deployment on, after any sequence of uploads,
    searches, classifications, health probes and task runs: every status a
    write gave to a record is ['pending'], given by an [INSERT] (the column
    default is ['pending'] as well), or ['indexed'], given by an [UPDATE];
    inserts come from uploads only and updates from the task only; no write
    gives ['indexing'] or ['failed'], and every row of the table has one of
    the two statuses.  The task's update is not conditioned on the status it
    replaces: after a run that returned normally the status is ['indexed']
    whatever it was.  Nor is the run: whether it returns or raises, and with
    what, is the same for every table the state may hold, so for every
    status the record may have; and a run that returns leaves the table it
    found with the status of its record set, by a statement whose only
    condition is the [image_id]. *)
Theorem only_pending_and_indexed_are_written (rs : list (env * request)) :
  Forall (fun ev => forall st, status_written ev = Some st ->
            (st = "pending" /\ exists i r, ev = SqlInsert i r) \/
            (st = "indexed" /\ exists i, ev = SqlUpdateStatus i "indexed"))
         (log (serve rs fresh_world)) /\
  Forall (fun ev => status_written ev <> Some "indexing" /\
                    status_written ev <> Some "failed")
         (log (serve rs fresh_world)) /\
  (forall i r, sim_images (serve rs fresh_world) !! i = Some r ->
     row_status r = "pending" \/ row_status r = "indexed") /\
  (forall E rq w, exists evs,
     handle E rq w = replay evs w /\ Forall (status_write_of rq) evs) /\
  status_default = "pending" /\
  (forall E j w (old : row),
     sim_images w !! job_image_id j = Some old ->
     match run_job E j w with
     | (Ok _, w') => status_of w' (job_image_id j) = Some "indexed"
     | (Raise _, w') => status_of w' (job_image_id j) = Some (row_status old)
     end) /\
  (forall E j w (t : gmap string row),
     fst (run_job E j (with_table t w)) = fst (run_job E j w) /\
     (forall b, fst (run_job E j w) = Ok b ->
        sim_images (snd (run_job E j (with_table t w)))
          = update_status (job_image_id j) "indexed" t /\
        forall old, t !! job_image_id j = Some old ->
          status_of (snd (run_job E j (with_table t w))) (job_image_id j)
            = Some "indexed")).
Proof.
  destruct (serve_trace rs fresh_world) as (evs & Hserve & _ & Hst).
  rewrite Hserve, log_replay. simpl.
  split; [|split; [|split; [|split; [|split; [|split]]]]].
  - eapply Forall_impl; [exact Hst|]. intros ev Hev st.
    destruct ev as [| |i r|i st'| | |]; simpl in *; try discriminate.
    + intros [= <-]. left. split; [done|]. by exists i, r.
    + intros [= <-]. right. split; [done|]. exists i. by rewrite Hev.
  - eapply Forall_impl; [exact Hst|]. intros ev Hev.
    destruct ev; simpl in *; rewrite ?Hev; split; discriminate.
  - apply replay_statuses; [done|].
    intros i r. unfold fresh_world. simpl. by rewrite lookup_empty.
  - intros E rq w. destruct (handle_trace E rq w) as (evs' & Hh & _ & Hw).
    by exists evs'.
  - reflexivity.
  - intros E j w old Hold. pose proof (run_job_status E j w) as Hrun.
    unfold status_of in Hrun at 2 4. rewrite Hold in Hrun. simpl in Hrun.
    destruct (run_job E j w) as [[b|e] w']; exact Hrun.
  - intros E j w t.
    destruct (run_job_with_table E j w t) as (res & evs' & Hrun & Hrun' & Htr).
    rewrite Hrun, Hrun'. simpl. split; [done|]. intros b ->.
    inversion Htr; subst. simpl. split; [done|].
    intros old Hold. unfold status_of. simpl. unfold update_status.
    by rewrite lookup_alter_eq, Hold.
Qed.

(** A record that is already ['indexed'], or in a state the code never
    writes, is set to ['indexed'] all the same. *)
Example status_is_not_compared :
  status_of
    (snd (run_job (Sample.env_up []) Sample.job1
            (with_table (update_status "id-1" "indexed" (sim_images Sample.uploaded))
               Sample.uploaded))) "id-1" = Some "indexed" /\
  fst (run_job (Sample.env_up []) Sample.job1
         (with_table (update_status "id-1" "failed" (sim_images Sample.uploaded))
            Sample.uploaded)) = Ok true /\
  status_of
    (snd (run_job (Sample.env_up []) Sample.job1
            (with_table (update_status "id-1" "failed" (sim_images Sample.uploaded))
               Sample.uploaded))) "id-1" = Some "indexed".
Proof. repeat split; vm_compute; reflexivity. Qed.

(** * Further properties *)

(** ** Splitting and joining *)

Lemma split_sep_length (c : ascii) (s : string) :
  length (split_sep c s) = S (count_char c s).
Proof.
  induction s as [|a s IH]; [reflexivity|]. simpl.
  destruct (Ascii.eqb a c); simpl; [by rewrite IH|].
  destruct (split_sep c s); simpl in *; [discriminate|done].
Qed.

(** [sep.join(s.split(sep)) == s] *)
Lemma join_split_sep (c : ascii) (s : string) :
  join (String c EmptyString) (split_sep c s) = s.
Proof.
  unfold join. induction s as [|a s IH]; [reflexivity|]. simpl.
  destruct (Ascii.eqb a c) eqn:Hac.
  - apply Ascii.eqb_eq in Hac as ->.
    destruct (split_sep c s) as [|p ps] eqn:Hs.
    + pose proof (split_sep_length c s) as Hl. rewrite Hs in Hl. discriminate.
    + simpl in *. by rewrite IH.
  - destruct (split_sep c s) as [|p ps] eqn:Hs.
    + pose proof (split_sep_length c s) as Hl. rewrite Hs in Hl. discriminate.
    + destruct ps; simpl in *; by rewrite <- IH.
Qed.

Lemma contains_count (c : ascii) (s : string) :
  contains c s = negb (Nat.eqb (count_char c s) 0).
Proof.
  induction s as [|a s IH]; [reflexivity|]. simpl.
  destruct (Ascii.eqb a c); [reflexivity|exact IH].
Qed.

(** X15.  The endpoint [minio_client] builds: a name without a colon gets
    the port 9000; a name with one colon is passed on as it is; a name with
    two or more colons (a URL with its scheme, an IPv6 address) makes
    [minio_client] raise [ValueError], whatever else is configured. *)
Theorem minio_endpoint_cases (s : string) :
  match count_char ":" s with
  | O => minio_endpoint s = Ok (s +:+ ":9000")
  | S O => minio_endpoint s = Ok s
  | S (S _) =>
      minio_endpoint s = Raise (ValueError "too many values to unpack (expected 2)")
  end.
Proof.
  unfold minio_endpoint. rewrite contains_count.
  pose proof (split_sep_length ":" s) as Hlen.
  pose proof (join_split_sep ":" s) as Hjoin.
  destruct (count_char ":" s) as [|[|n]]; simpl; [reflexivity| |].
  - destruct (split_sep ":" s) as [|host [|port [|x xs]]]; try discriminate.
    unfold join in Hjoin. simpl in Hjoin. by rewrite Hjoin.
  - by destruct (split_sep ":" s) as [|host [|port [|x xs]]].
Qed.

Example minio_endpoint_examples :
  minio_endpoint "minio:9000" = Ok "minio:9000" /\
  minio_endpoint "minio" = Ok "minio:9000" /\
  minio_endpoint "http://minio:9000"
    = Raise (ValueError "too many values to unpack (expected 2)").
Proof. repeat split; reflexivity. Qed.

(** ** Stripping *)


Lemma app_nil_r_str (t : string) : t +:+ "" = t.
Proof.
  induction t as [|a t IH]; [reflexivity|].
  change (String a t +:+ "") with (String a (t +:+ "")). by rewrite IH.
Qed.

Lemma app_cons_str (a : ascii) (s t : string) :
  String a s +:+ t = String a (s +:+ t).
Proof. reflexivity. Qed.

Lemma app_nil_l_str (t : string) : "" +:+ t = t.
Proof. reflexivity. Qed.

Lemma app_assoc_str (a b c : string) : (a +:+ b) +:+ c = a +:+ (b +:+ c).
Proof.
  induction a as [|x a IH]; [reflexivity|].
  rewrite !app_cons_str. by rewrite IH.
Qed.

Lemma length_app_str (a b : string) :
  String.length (a +:+ b) = (String.length a + String.length b)%nat.
Proof.
  induction a as [|x a IH]; [reflexivity|].
  rewrite app_cons_str. simpl. by rewrite IH.
Qed.

Lemma bytes_app (a b : string) :
  list_ascii_of_string (a +:+ b) = list_ascii_of_string a ++ list_ascii_of_string b.
Proof.
  induction a as [|x a IH]; [reflexivity|].
  rewrite app_cons_str. simpl. by rewrite IH.
Qed.

Lemma leading_space_split (s r : string) :
  leading_space s = Some r ->
  exists a, a <> "" /\ s = a +:+ r.
Proof.
  unfold leading_space. destruct s as [|c [|d1 [|d2 s3]]]; try discriminate.
  - destruct (is_ascii_space c); [|discriminate]. intros [= <-].
    exists (String c ""). by split.
  - destruct (is_ascii_space c).
    { intros [= <-]. exists (String c ""). by split. }
    destruct (two_byte_space c d1); [|discriminate]. intros [= <-].
    exists (String c (String d1 "")). by split.
  - destruct (is_ascii_space c).
    { intros [= <-]. exists (String c ""). by split. }
    destruct (two_byte_space c d1).
    { intros [= <-]. exists (String c (String d1 "")). by split. }
    destruct (three_byte_space c d1 d2); [|discriminate]. intros [= <-].
    exists (String c (String d1 (String d2 ""))). by split.
Qed.

Lemma leading_space_length (s r : string) :
  leading_space s = Some r -> (String.length r < String.length s)%nat.
Proof.
  intros H. apply leading_space_split in H as (a & Ha & ->).
  rewrite length_app_str. destruct a; [done|]. simpl. lia.
Qed.

Lemma leading_space_app (s r t : string) :
  leading_space s = Some r -> leading_space (s +:+ t) = Some (r +:+ t).
Proof.
  unfold leading_space. destruct s as [|c [|d1 [|d2 s3]]]; try discriminate;
    rewrite ?app_cons_str, ?app_nil_l_str.
  - destruct (is_ascii_space c); [|discriminate]. by intros [= <-].
  - destruct (is_ascii_space c); [by intros [= <-]|].
    destruct (two_byte_space c d1); [|discriminate]. by intros [= <-].
  - destruct (is_ascii_space c); [by intros [= <-]|].
    destruct (two_byte_space c d1); [by intros [= <-]|].
    destruct (three_byte_space c d1 d2); [|discriminate]. by intros [= <-].
Qed.

Lemma two_byte_space_blank (c : ascii) : two_byte_space c " " = false.
Proof. unfold two_byte_space. by rewrite andb_false_r. Qed.

Lemma three_byte_space_blank_1 (c d2 : ascii) : three_byte_space c " " d2 = false.
Proof.
  unfold three_byte_space.
  change (byte_in " " 154 154) with false. change (byte_in " " 128 128) with false.
  change (byte_in " " 129 129) with false.
  by rewrite !andb_false_r.
Qed.

Lemma three_byte_space_blank_2 (c d1 : ascii) : three_byte_space c d1 " " = false.
Proof.
  unfold three_byte_space.
  change (byte_in " " 128 128) with false. change (byte_in " " 128 138) with false.
  change (byte_in " " 168 169) with false. change (byte_in " " 175 175) with false.
  change (byte_in " " 159 159) with false.
  by rewrite !andb_false_r.
Qed.

(** A white-space character does not straddle the end of a string that is
    followed by a blank. *)
Lemma leading_space_before_blank (s t : string) :
  s <> "" -> leading_space s = None ->
  leading_space (s +:+ String " " t) = None.
Proof.
  unfold leading_space. destruct s as [|c [|d1 [|d2 s3]]]; [done| | |];
    intros _; rewrite ?app_cons_str, ?app_nil_l_str.
  - destruct (is_ascii_space c); [discriminate|]. intros _.
    rewrite two_byte_space_blank. destruct t; [done|].
    by rewrite three_byte_space_blank_1.
  - destruct (is_ascii_space c); [discriminate|].
    destruct (two_byte_space c d1); [discriminate|]. intros _.
    by rewrite three_byte_space_blank_2.
  - destruct (is_ascii_space c); [discriminate|].
    destruct (two_byte_space c d1); [discriminate|].
    by destruct (three_byte_space c d1 d2).
Qed.

Lemma lstrip_fuel_enough (n m : nat) (s : string) :
  (String.length s <= n)%nat -> (String.length s <= m)%nat ->
  lstrip_fuel n s = lstrip_fuel m s.
Proof.
  revert m s. induction n as [|n IH]; intros m s Hn Hm.
  - destruct s; [|simpl in Hn; lia]. by destruct m.
  - destruct m as [|m].
    + destruct s; [reflexivity|simpl in Hm; lia].
    + simpl. destruct (leading_space s) as [r|] eqn:Hr; [|reflexivity].
      apply leading_space_length in Hr. apply IH; lia.
Qed.

Lemma lstrip_some (s r : string) :
  leading_space s = Some r -> lstrip s = lstrip r.
Proof.
  intros Hr. unfold lstrip. pose proof (leading_space_length _ _ Hr) as Hlen.
  destruct (String.length s) as [|n] eqn:Hn; [lia|].
  simpl. rewrite Hr. apply lstrip_fuel_enough; lia.
Qed.

Lemma lstrip_none (s : string) : leading_space s = None -> lstrip s = s.
Proof.
  intros Hr. unfold lstrip. destruct (String.length s); [reflexivity|].
  simpl. by rewrite Hr.
Qed.

(** Induction along the white-space characters at the head of a string. *)
Lemma lstrip_ind (P : string -> Prop) :
  (forall s, leading_space s = None -> P s) ->
  (forall s r, leading_space s = Some r -> P r -> P s) ->
  forall s, P s.
Proof.
  intros Hnone Hsome s.
  remember (String.length s) as n eqn:Hn.
  revert s Hn. induction n as [n IH] using lt_wf_ind. intros s ->.
  destruct (leading_space s) as [r|] eqn:Hr; [|by apply Hnone].
  apply (Hsome s r Hr). apply (IH (String.length r)); [|reflexivity].
  by apply leading_space_length.
Qed.

Lemma lstrip_no_leading (s : string) : leading_space (lstrip s) = None.
Proof.
  induction s as [s Hs|s r Hr IH] using lstrip_ind.
  - by rewrite lstrip_none.
  - by rewrite (lstrip_some s r).
Qed.

Lemma lstrip_suffix (s : string) : exists a, s = a +:+ lstrip s.
Proof.
  induction s as [s Hs|s r Hr IH] using lstrip_ind.
  - exists "". by rewrite lstrip_none.
  - rewrite (lstrip_some s r Hr). destruct IH as [a Ha].
    apply leading_space_split in Hr as (b & _ & ->).
    exists (b +:+ a). rewrite app_assoc_str. by rewrite <- Ha.
Qed.

Lemma lstrip_idem (s : string) : lstrip (lstrip s) = lstrip s.
Proof. apply lstrip_none, lstrip_no_leading. Qed.

Lemma all_space_app (a b : string) :
  all_space a = true -> lstrip (a +:+ b) = lstrip b.
Proof.
  unfold all_space. induction a as [a Ha|a r Hr IH] using lstrip_ind.
  - rewrite lstrip_none by done. destruct a; [done|discriminate].
  - rewrite (lstrip_some a r Hr). intros Hall.
    rewrite (lstrip_some (a +:+ b) (r +:+ b)); [by apply IH|].
    by apply leading_space_app.
Qed.

Lemma rstrip_decomp (s : string) :
  exists b, s = rstrip s +:+ b /\ all_space b = true.
Proof.
  induction s as [|c s IH]; [by exists ""|].
  simpl. destruct (all_space (String c s)) eqn:Hall.
  - by exists (String c s).
  - destruct IH as (b & Hb & Hall'). exists b. split; [|done].
    rewrite app_cons_str. by rewrite <- Hb.
Qed.

Lemma rstrip_no_trailing (s : string) : ends_with_space (rstrip s) = false.
Proof.
  induction s as [|c s IH]; [reflexivity|].
  simpl. destruct (all_space (String c s)) eqn:Hall; [reflexivity|].
  simpl. rewrite IH, orb_false_r.
  destruct (all_space (String c (rstrip s))) eqn:Hall'; [|reflexivity].
  destruct (rstrip_decomp s) as (b & Hb & Hallb).
  assert (Hs : String c s = String c (rstrip s) +:+ b)
    by (rewrite app_cons_str; by rewrite <- Hb).
  unfold all_space in Hall. rewrite Hs, (all_space_app _ _ Hall') in Hall.
  unfold all_space in Hallb. congruence.
Qed.

Lemma ends_with_space_suffix (a s : string) :
  ends_with_space (a +:+ s) = false -> ends_with_space s = false.
Proof.
  induction a as [|c a IH]; [done|].
  rewrite app_cons_str. simpl. intros H. apply orb_false_iff in H as [_ H]. by apply IH.
Qed.

Lemma strip_trimmed (s : string) : trimmed (strip s).
Proof.
  unfold trimmed, strip, starts_with_space. split.
  - by rewrite lstrip_no_leading.
  - destruct (lstrip_suffix (rstrip s)) as [a Ha].
    apply (ends_with_space_suffix a). rewrite <- Ha. apply rstrip_no_trailing.
Qed.

Lemma rstrip_id (s : string) : ends_with_space s = false -> rstrip s = s.
Proof.
  induction s as [|c s IH]; [done|]. simpl. intros H.
  apply orb_false_iff in H as [-> H]. by rewrite IH.
Qed.

Lemma strip_id (s : string) : trimmed s -> strip s = s.
Proof.
  unfold trimmed, starts_with_space. intros [Hf Hl]. unfold strip.
  rewrite rstrip_id by done. apply lstrip_none.
  by destruct (leading_space s).
Qed.

Lemma strip_bytes (s : string) (c : ascii) :
  In c (list_ascii_of_string (strip s)) -> In c (list_ascii_of_string s).
Proof.
  unfold strip. intros H.
  destruct (lstrip_suffix (rstrip s)) as [a Ha].
  destruct (rstrip_decomp s) as (b & Hb & _).
  rewrite Hb, Ha, !bytes_app. apply in_or_app. left. apply in_or_app. by right.
Qed.

Lemma split_sep_chars (sep : ascii) (s : string) :
  Forall (fun p => ~ In sep (list_ascii_of_string p)) (split_sep sep s).
Proof.
  induction s as [|a s IH]; simpl.
  { constructor; [by intros []|constructor]. }
  destruct (Ascii.eqb a sep) eqn:Ha.
  - constructor; [by intros []|done].
  - destruct (split_sep sep s) as [|p ps].
    + constructor; [|constructor].
      simpl. intros [->|[]]. by rewrite Ascii.eqb_refl in Ha.
    + inversion IH as [|? ? Hp Hps]; subst. constructor; [|done].
      simpl. intros [->|H]; [by rewrite Ascii.eqb_refl in Ha|done].
Qed.

Lemma upload_tags_clean (tags : string) : Forall clean_tag (upload_tags tags).
Proof.
  unfold upload_tags. apply Forall_forall. intros t Ht.
  apply list_elem_of_In, filter_In in Ht as [Ht Htruthy].
  apply in_map_iff in Ht as (p & <- & Hp).
  split; [by destruct (strip p)|]. split; [apply strip_trimmed|].
  intros Hc. apply strip_bytes in Hc.
  pose proof (split_sep_chars "," tags) as Hall.
  rewrite Forall_forall in Hall. apply (Hall p); [|done].
  by apply list_elem_of_In.
Qed.

(** ** Words *)

Lemma take_word_app (s : string) :
  s = fst (take_word s) +:+ snd (take_word s).
Proof.
  induction s as [|c s IH]; [reflexivity|].
  simpl. destruct (leading_space (String c s)); [reflexivity|].
  destruct (take_word s) as [p r]. simpl in *. by rewrite app_cons_str, <- IH.
Qed.

Lemma take_word_no_space (s : string) : has_space (fst (take_word s)) = false.
Proof.
  induction s as [|c s IH]; [reflexivity|].
  simpl. destruct (leading_space (String c s)) as [x|] eqn:Hc; [reflexivity|].
  pose proof (take_word_app s) as Happ.
  destruct (take_word s) as [p r]. simpl in *. rewrite IH, orb_false_r.
  unfold starts_with_space.
  destruct (leading_space (String c p)) as [y|] eqn:Hp; [|reflexivity].
  apply (leading_space_app _ _ r) in Hp. rewrite app_cons_str, <- Happ in Hp.
  congruence.
Qed.

Lemma take_word_nonempty (s : string) :
  s <> "" -> leading_space s = None -> fst (take_word s) <> "".
Proof.
  destruct s as [|c s]; [done|]. intros _ Hc. simpl. rewrite Hc.
  by destruct (take_word s).
Qed.

Lemma take_word_length (s : string) :
  (String.length (snd (take_word s)) <= String.length s)%nat.
Proof.
  induction s as [|c s IH]; [done|]. simpl.
  destruct (leading_space (String c s)); [done|].
  destruct (take_word s). simpl in *. lia.
Qed.

Lemma split_ws_fuel_S (n : nat) (s : string) :
  split_ws_fuel (S n) s =
  match lstrip s with
  | EmptyString => []
  | String c s1 =>
      let '(p, r) := take_word (String c s1) in p :: split_ws_fuel n r
  end.
Proof. reflexivity. Qed.

Lemma split_ws_fuel_words (n : nat) (s : string) : Forall word (split_ws_fuel n s).
Proof.
  revert s. induction n as [|n IH]; intros s; [constructor|].
  rewrite split_ws_fuel_S.
  pose proof (lstrip_no_leading s) as Hlead.
  destruct (lstrip s) as [|c s1] eqn:Hs; [constructor|].
  pose proof (take_word_no_space (String c s1)) as Hw.
  pose proof (take_word_nonempty (String c s1) ltac:(done) Hlead) as Hne.
  destruct (take_word (String c s1)) as [p r]. constructor; [by split|apply IH].
Qed.

Lemma split_ws_words (s : string) : Forall word (split_ws s).
Proof. apply split_ws_fuel_words. Qed.

(** ** Joining and splitting again *)

Lemma word_no_leading (t : string) : has_space t = false -> leading_space t = None.
Proof.
  destruct t as [|c t]; [done|]. simpl. unfold starts_with_space.
  by destruct (leading_space (String c t)).
Qed.

Lemma take_word_whole (t : string) : has_space t = false -> take_word t = (t, "").
Proof.
  induction t as [|c t IH]; [done|]. intros H.
  pose proof (word_no_leading _ H) as Hlead.
  simpl in H. apply orb_false_iff in H as [_ H].
  simpl. by rewrite Hlead, (IH H).
Qed.

Lemma take_word_before_blank (t r : string) :
  has_space t = false -> take_word (t +:+ String " " r) = (t, String " " r).
Proof.
  induction t as [|c t IH]; [done|]. intros H.
  pose proof (word_no_leading _ H) as Hlead.
  simpl in H. apply orb_false_iff in H as [_ H].
  rewrite app_cons_str.
  pose proof (leading_space_before_blank (String c t) r ltac:(done) Hlead) as Hb.
  rewrite app_cons_str in Hb.
  simpl. simpl in Hb. rewrite Hb. by rewrite (IH H).
Qed.

Lemma split_ws_fuel_blank (n : nat) (r : string) :
  split_ws_fuel n (String " " r) = split_ws_fuel n r.
Proof.
  destruct n as [|n]; [reflexivity|]. rewrite !split_ws_fuel_S.
  by rewrite (lstrip_some (String " " r) r).
Qed.

Lemma split_ws_fuel_join (l : list string) (n : nat) :
  Forall word l ->
  (String.length (String.concat " " l) < n)%nat ->
  split_ws_fuel n (String.concat " " l) = l.
Proof.
  intros Hl. revert n. induction Hl as [|t l [Hne Ht] Hl IH]; intros n Hn.
  { destruct n; [lia|]. reflexivity. }
  destruct n as [|n]; [lia|].
  destruct l as [|u l].
  - change (String.concat " " [t]) with t in *. rewrite split_ws_fuel_S.
    rewrite (lstrip_none t) by (by apply word_no_leading).
    destruct t as [|c t]; [done|].
    rewrite (take_word_whole (String c t) Ht).
    f_equal. by destruct n.
  - change (String.concat " " (t :: u :: l))
      with (t +:+ String " " (String.concat " " (u :: l))) in *.
    remember (String.concat " " (u :: l)) as rest eqn:Hrest.
    rewrite length_app_str in Hn. simpl in Hn.
    rewrite split_ws_fuel_S.
    rewrite (lstrip_none (t +:+ String " " rest)).
    2:{ apply leading_space_before_blank; [done|by apply word_no_leading]. }
    destruct t as [|c t]; [done|].
    rewrite app_cons_str.
    pose proof (take_word_before_blank (String c t) rest Ht) as Htw.
    rewrite app_cons_str in Htw. rewrite Htw.
    f_equal. rewrite split_ws_fuel_blank. apply IH. simpl in Hn. lia.
Qed.

(** [" ".join(l).split() == l] for words. *)
Lemma split_ws_join (l : list string) :
  Forall word l -> split_ws (String.concat " " l) = l.
Proof. intros Hl. apply split_ws_fuel_join; [done|lia]. Qed.

(** ** The extension of a file name *)

Lemma rfind_from_get (c : ascii) (p : string) (i : Z) :
  0 <= i ->
  rfind_from c p i = -1 \/
  (i <= rfind_from c p i /\
   String.get (Z.to_nat (rfind_from c p i - i)) p = Some c).
Proof.
  revert i. induction p as [|a p IH]; intros i Hi; simpl; [by left|].
  destruct (IH (i + 1)) as [Hr|[Hle Hget]]; [lia| |].
  - rewrite Hr. simpl. destruct (Ascii.eqb a c) eqn:Hac; [|by left].
    right. split; [lia|]. rewrite Z.sub_diag. simpl.
    by apply Ascii.eqb_eq in Hac as ->.
  - destruct (0 <=? rfind_from c p (i + 1)) eqn:Hpos; [|lia].
    right. split; [lia|].
    replace (Z.to_nat (rfind_from c p (i + 1) - i))
      with (S (Z.to_nat (rfind_from c p (i + 1) - (i + 1)))) by lia.
    exact Hget.
Qed.

Lemma substring_get (n m : nat) (p : string) (c : ascii) :
  String.get n p = Some c ->
  exists r, String.substring n (S m) p = String c r.
Proof.
  revert n. induction p as [|a p IH]; intros n; [by destruct n|].
  destruct n as [|n]; simpl.
  - intros [= <-]. by eexists.
  - apply IH.
Qed.

Lemma get_length (n : nat) (p : string) (c : ascii) :
  String.get n p = Some c -> (n < String.length p)%nat.
Proof.
  revert n. induction p as [|a p IH]; intros n; [by destruct n|].
  destruct n as [|n]; simpl; [lia|]. intros H. apply IH in H. lia.
Qed.

(** The extension [splitext] returns is empty or begins with a dot. *)
Lemma splitext_ext (p : string) :
  snd (splitext p) = "" \/ exists r, snd (splitext p) = String "." r.
Proof.
  unfold splitext.
  destruct ((rfind "/" p <? rfind "." p) && _) eqn:Hc; [|by left].
  right. simpl. apply andb_true_iff in Hc as [Hlt _]. apply Z.ltb_lt in Hlt.
  unfold rfind in *.
  destruct (rfind_from_get "." p 0 ltac:(lia)) as [Hd|[_ Hget]].
  - destruct (rfind_from_get "/" p 0 ltac:(lia)) as [Hs|[Hs _]]; lia.
  - rewrite Z.sub_0_r in Hget. pose proof (get_length _ _ _ Hget) as Hlen.
    replace (String.length p - Z.to_nat (rfind_from "." p 0))%nat
      with (S (String.length p - Z.to_nat (rfind_from "." p 0) - 1)) by lia.
    by eapply substring_get.
Qed.

Lemma upload_ext_dot (f : string) : exists r, upload_ext f = String "." r.
Proof.
  unfold upload_ext, py_or. destruct (splitext_ext f) as [->|[r ->]]; by eexists.
Qed.

(** ** The upload endpoint *)

Lemma upload_image_closed (E : env) (f : string) (data : bytes)
    (title tags : string) (w : world) :
  upload_image E (Some f) data title tags w =
  match minio_fault E with
  | Some e => (Raise (http_500 E e), w)
  | None =>
      let w1 := apply_event (BlobPut (upload_key E f) data) w in
      match pg_fault E with
      | Some e => (Raise (http_500 E e), w1)
      | None =>
          let w2 := apply_event (SqlInsert (uuid4 E) (upload_row E f title tags)) w1 in
          match broker_fault E with
          | Some e => (Raise (http_500 E e), w2)
          | None =>
              (Ok (uuid4 E, "queued"),
               apply_event (Enqueue (upload_job E f title tags)) w2)
          end
      end
  end.
Proof.
  unfold upload_image, try_except, put_object, execute, delay, check, emit,
    raise, ret, bind, http_500.
  destruct (minio_fault E); [reflexivity|].
  destruct (pg_fault E); [reflexivity|].
  destruct (broker_fault E); reflexivity.
Qed.

Lemma upload_image_no_filename (E : env) (data : bytes) (title tags : string)
    (w : world) :
  upload_image E None data title tags w =
  (Raise (http_500 E (TypeError "expected str, bytes or os.PathLike object, not NoneType")), w).
Proof. reflexivity. Qed.

(** X1.  An upload that returns normally answers with the fresh id and
    ['queued'], has stored the bytes under the object key, has appended one
    job for that key at the end of the queue, and left the index alone.  The
    table holds a row for the id: the new ['pending'] row when the id was
    free, and the row that was there, unchanged, when it was not ([ON
    CONFLICT DO NOTHING]); no other row is touched. *)
Theorem upload_success (E : env) (f : option string) (data : bytes)
    (title tags : string) (w w' : world) (res : string * string) :
  upload_image E f data title tags w = (Ok res, w') ->
  exists name,
    f = Some name /\
    res = (uuid4 E, "queued") /\
    blobs w' !! upload_key E name = Some data /\
    sim_images w' !! uuid4 E
      = Some (default (upload_row E name title tags) (sim_images w !! uuid4 E)) /\
    (forall i, i <> uuid4 E -> sim_images w' !! i = sim_images w !! i) /\
    queue w' = queue w ++ [upload_job E name title tags] /\
    image_vectors w' = image_vectors w.
Proof.
  destruct f as [name|]; [|by rewrite upload_image_no_filename].
  rewrite upload_image_closed.
  destruct (minio_fault E); [discriminate|].
  destruct (pg_fault E); [discriminate|].
  destruct (broker_fault E); [discriminate|].
  intros [= <- <-]. exists name. simpl.
  split; [done|]. split; [done|]. split; [apply lookup_insert_eq|].
  unfold insert_do_nothing. split; [|split].
  - destruct (sim_images w !! uuid4 E) eqn:Hi; simpl; [done|apply lookup_insert_eq].
  - intros i Hi. destruct (sim_images w !! uuid4 E); [done|].
    by rewrite lookup_insert_ne.
  - done.
Qed.

Lemma upload_success_witness :
  upload_image (Cases.env_with "id-2" None None None) (Some "dog.jpeg") Sample.png
      "dog" "pet" Sample.uploaded
    = (Ok ("id-2", "queued"),
       snd (upload_image (Cases.env_with "id-2" None None None) (Some "dog.jpeg")
              Sample.png "dog" "pet" Sample.uploaded)) /\
  blobs (snd (upload_image (Cases.env_with "id-2" None None None) (Some "dog.jpeg")
                Sample.png "dog" "pet" Sample.uploaded))
    !! "similarity/id-2.jpeg" = Some Sample.png.
Proof.
  assert (Hrun : upload_image (Cases.env_with "id-2" None None None) (Some "dog.jpeg")
                   Sample.png "dog" "pet" Sample.uploaded
                 = (Ok ("id-2", "queued"),
                    snd (upload_image (Cases.env_with "id-2" None None None)
                           (Some "dog.jpeg") Sample.png "dog" "pet" Sample.uploaded)))
    by (vm_compute; reflexivity).
  split; [exact Hrun|].
  destruct (upload_success _ _ _ _ _ _ _ _ Hrun) as (name & Hname & _ & Hblob & _).
  injection Hname as <-. exact Hblob.
Defined.

(** X2.  An upload that fails answers HTTP 500 and has queued no job and
    written no document.  Without a file name, or when the bucket write
    fails, nothing at all was written; a row is in the table only if the
    bytes are in the bucket; and when it is the broker that fails, the row
    just inserted stays ['pending'] with no job for it. *)
Theorem upload_failure (E : env) (f : option string) (data : bytes)
    (title tags : string) (w w' : world) (e : exn) :
  upload_image E f data title tags w = (Raise e, w') ->
  (exists e0, e = HTTPException 500 (str_exc E e0)) /\
  queue w' = queue w /\
  image_vectors w' = image_vectors w /\
  (f = None \/ is_Some (minio_fault E) -> w' = w) /\
  (forall name, f = Some name -> sim_images w' <> sim_images w ->
     blobs w' !! upload_key E name = Some data) /\
  (minio_fault E = None -> pg_fault E = None ->
   sim_images w !! uuid4 E = None -> is_Some f ->
     status_of w' (uuid4 E) = Some "pending").
Proof.
  destruct f as [name|].
  2:{ rewrite upload_image_no_filename. intros [= <- <-].
      split; [by eexists|]. repeat split; try done. }
  rewrite upload_image_closed.
  destruct (minio_fault E) as [e1|] eqn:Hm.
  { intros [= <- <-]. split; [by eexists|]. repeat split; try done. }
  destruct (pg_fault E) as [e2|] eqn:Hp.
  { intros [= <- <-]. split; [by eexists|]. simpl. repeat split; try done.
    intros [[=]|[? [=]]]. }
  destruct (broker_fault E) as [e3|] eqn:Hb; [|discriminate].
  intros [= <- <-]. split; [by eexists|]. simpl. repeat split; try done.
  - intros [[=]|[? [=]]].
  - intros n [= <-] _. apply lookup_insert_eq.
  - intros _ _ Hfree _. unfold status_of, insert_do_nothing. simpl.
    by rewrite Hfree, lookup_insert_eq.
Qed.

Lemma upload_failure_witness :
  upload_image (Cases.env_with "id-2" None None (Some Cases.refused))
      (Some "dog.jpeg") Sample.png "dog" "pet" Sample.uploaded
    = (Raise (HTTPException 500 "connection refused"),
       snd (upload_image (Cases.env_with "id-2" None None (Some Cases.refused))
              (Some "dog.jpeg") Sample.png "dog" "pet" Sample.uploaded)) /\
  queue (snd (upload_image (Cases.env_with "id-2" None None (Some Cases.refused))
                (Some "dog.jpeg") Sample.png "dog" "pet" Sample.uploaded))
    = queue Sample.uploaded /\
  status_of (snd (upload_image (Cases.env_with "id-2" None None (Some Cases.refused))
                    (Some "dog.jpeg") Sample.png "dog" "pet" Sample.uploaded)) "id-2"
    = Some "pending".
Proof.
  assert (Hrun : upload_image (Cases.env_with "id-2" None None (Some Cases.refused))
                   (Some "dog.jpeg") Sample.png "dog" "pet" Sample.uploaded
                 = (Raise (HTTPException 500 "connection refused"),
                    snd (upload_image (Cases.env_with "id-2" None None (Some Cases.refused))
                           (Some "dog.jpeg") Sample.png "dog" "pet" Sample.uploaded)))
    by (vm_compute; reflexivity).
  split; [exact Hrun|].
  destruct (upload_failure _ _ _ _ _ _ _ _ Hrun) as (_ & Hq & _ & _ & _ & Hstuck).
  split; [exact Hq|].
  apply Hstuck; [reflexivity|reflexivity|vm_compute; reflexivity|by eexists].
Defined.

(** X3.  The object key of an accepted upload is
    [similarity/<image_id>.<ext>]: the extension is that of the file name,
    and [.jpg] for a name that has none, so it is never empty; the bytes are
    in the bucket under that key and the queued job carries it. *)
Theorem upload_key_has_extension (E : env) (name : string) (data : bytes)
    (title tags : string) (w w' : world) (res : string * string) :
  upload_image E (Some name) data title tags w = (Ok res, w') ->
  exists ext j,
    blobs w' !! ("similarity/" +:+ fst res +:+ String "." ext) = Some data /\
    last (queue w') = Some j /\
    job_image_id j = fst res /\
    job_object_key j = "similarity/" +:+ fst res +:+ String "." ext /\
    (snd (splitext name) = "" -> ext = "jpg") /\
    (snd (splitext name) <> "" -> snd (splitext name) = String "." ext).
Proof.
  rewrite upload_image_closed.
  destruct (minio_fault E); [discriminate|].
  destruct (pg_fault E); [discriminate|].
  destruct (broker_fault E); [discriminate|].
  intros [= <- <-]. destruct (upload_ext_dot name) as [ext Hext].
  exists ext, (upload_job E name title tags). simpl.
  unfold upload_key. rewrite Hext. split; [apply lookup_insert_eq|].
  split; [apply last_snoc|]. split; [done|]. split; [done|].
  unfold upload_ext, py_or in Hext. split.
  - intros Hnone. rewrite Hnone in Hext. simpl in Hext. by injection Hext.
  - intros Hsome. by destruct (snd (splitext name)).
Qed.

Lemma upload_key_has_extension_witness :
  upload_image (Cases.env_with "id-2" None None None) (Some "dog") Sample.png
      "dog" "pet" Sample.uploaded
    = (Ok ("id-2", "queued"),
       snd (upload_image (Cases.env_with "id-2" None None None) (Some "dog")
              Sample.png "dog" "pet" Sample.uploaded)) /\
  exists ext,
    blobs (snd (upload_image (Cases.env_with "id-2" None None None) (Some "dog")
                  Sample.png "dog" "pet" Sample.uploaded))
      !! ("similarity/" +:+ "id-2" +:+ String "." ext) = Some Sample.png.
Proof.
  assert (Hrun : upload_image (Cases.env_with "id-2" None None None) (Some "dog")
                   Sample.png "dog" "pet" Sample.uploaded
                 = (Ok ("id-2", "queued"),
                    snd (upload_image (Cases.env_with "id-2" None None None)
                           (Some "dog") Sample.png "dog" "pet" Sample.uploaded)))
    by (vm_compute; reflexivity).
  split; [exact Hrun|].
  destruct (upload_key_has_extension _ _ _ _ _ _ _ _ Hrun) as (ext & j & Hblob & _).
  by exists ext.
Defined.

(** X4.  The tags of an accepted upload: the comma-separated pieces of the
    form field, each stripped, the empty ones dropped.  So every tag handed
    to the job is non-empty, has no white space at either end and contains no
    comma, and stripping it again changes nothing; a field without any tag
    is stored as NULL in the table, never as an empty array. *)
Theorem upload_tags_are_clean (E : env) (f : option string) (data : bytes)
    (title tags : string) (w w' : world) (res : string * string) :
  upload_image E f data title tags w = (Ok res, w') ->
  exists j l,
    last (queue w') = Some j /\ job_tags j = Some l /\
    Forall clean_tag l /\
    Forall (fun t => strip t = t) l /\
    (sim_images w !! fst res = None ->
     exists r, sim_images w' !! fst res = Some r /\
               row_tags r = match l with [] => None | _ => Some l end).
Proof.
  destruct f as [name|]; [|by rewrite upload_image_no_filename].
  rewrite upload_image_closed.
  destruct (minio_fault E); [discriminate|].
  destruct (pg_fault E); [discriminate|].
  destruct (broker_fault E); [discriminate|].
  intros [= <- <-].
  exists (upload_job E name title tags), (upload_tags tags). simpl.
  split; [apply last_snoc|]. split; [done|].
  split; [apply upload_tags_clean|]. split.
  - eapply Forall_impl; [apply upload_tags_clean|].
    intros t (_ & Ht & _). by apply strip_id.
  - intros Hfree. unfold insert_do_nothing. rewrite Hfree.
    eexists. split; [apply lookup_insert_eq|reflexivity].
Qed.

Lemma upload_tags_are_clean_witness :
  upload_image (Cases.env_with "id-2" None None None) (Some "dog.jpeg") Sample.png
      "dog" " big dog ,, pet," Sample.uploaded
    = (Ok ("id-2", "queued"),
       snd (upload_image (Cases.env_with "id-2" None None None) (Some "dog.jpeg")
              Sample.png "dog" " big dog ,, pet," Sample.uploaded)) /\
  exists j l,
    last (queue (snd (upload_image (Cases.env_with "id-2" None None None)
                        (Some "dog.jpeg") Sample.png "dog" " big dog ,, pet,"
                        Sample.uploaded))) = Some j /\
    job_tags j = Some l /\ Forall clean_tag l.
Proof.
  assert (Hrun : upload_image (Cases.env_with "id-2" None None None) (Some "dog.jpeg")
                   Sample.png "dog" " big dog ,, pet," Sample.uploaded
                 = (Ok ("id-2", "queued"),
                    snd (upload_image (Cases.env_with "id-2" None None None)
                           (Some "dog.jpeg") Sample.png "dog" " big dog ,, pet,"
                           Sample.uploaded)))
    by (vm_compute; reflexivity).
  split; [exact Hrun|].
  destruct (upload_tags_are_clean _ _ _ _ _ _ _ _ Hrun) as (j & l & Hj & Hl & Hc & _).
  by exists j, l.
Defined.

(** ** The task, further *)

(** X5.  A run of the task whose first statement, the import of
    [sentence_transformers], raises ends there, with nothing written.  Every
    other run leaves its temporary file behind ([delete=False], never
    removed): after the run, whatever it returned, the file exists, empty
    when the download did not happen and holding the image's bytes when it
    did, and no other file was touched.  When the object is not in the
    bucket such a run ends with [S3Error] and the empty file is all it
    wrote. *)
Theorem task_leaves_its_file (E : env) (j : job) (w : world) :
  (forall e, import_fault E = Some e -> run_job E j w = (Raise e, w)) /\
  (import_fault E = None ->
   (fs (snd (run_job E j w)) !! (tmp_stem E (fs w) +:+ ".img") = Some [] \/
    (is_Some (blobs w !! job_object_key j) /\
     fs (snd (run_job E j w)) !! (tmp_stem E (fs w) +:+ ".img")
       = blobs w !! job_object_key j)) /\
   (forall q, q <> tmp_stem E (fs w) +:+ ".img" ->
      fs (snd (run_job E j w)) !! q = fs w !! q) /\
   (forall b, fst (run_job E j w) = Ok b ->
      fs (snd (run_job E j w)) !! (tmp_stem E (fs w) +:+ ".img")
        = blobs w !! job_object_key j) /\
   (minio_fault E = None -> blobs w !! job_object_key j = None ->
      run_job E j w
        = (Raise (S3Error "NoSuchKey"),
           apply_event (FileWrite (tmp_stem E (fs w) +:+ ".img") []) w))).
Proof.
  split.
  { intros e He. unfold run_job, compute_and_index, check, raise, bind.
    by rewrite He. }
  intros Himp.
  destruct (run_job_task_run E j w) as (res & evs & Hrun & Htr).
  rewrite Hrun. simpl.
  destruct Htr as [e ? Hm|? Hm Hb|data e ? Hm Hb ?|data e ? Hm Hb ? ?
                  |data emb e ? Hm Hb ? ? ?|data emb e ? Hm Hb ? ? ? ?
                  |data emb ? Hm Hb ? ? ? ?|e Hi];
    try congruence; simpl;
    (split; [first [left; apply lookup_insert_eq
                   |right; rewrite Hb; split; [by eexists|apply lookup_insert_eq]]|]);
    (split; [intros q Hq; by rewrite ?lookup_insert_ne|]);
    (split; [intros b Hok; try discriminate; rewrite Hb; apply lookup_insert_eq|]);
    intros Hm' Hb'; first [done|congruence].
Qed.

Lemma task_leaves_its_file_witness :
  import_fault Cases.env_no_package
    = Some (LibraryError "ModuleNotFoundError" "No module named 'sentence_transformers'") /\
  run_job Cases.env_no_package Sample.job1 Sample.uploaded
    = (Raise (LibraryError "ModuleNotFoundError" "No module named 'sentence_transformers'"),
       Sample.uploaded) /\
  import_fault (Sample.env_up []) = None /\
  fs (snd (run_job (Sample.env_up []) Sample.job1 Sample.uploaded)) !! "/tmp/tmpa.img"
    = Some Sample.png.
Proof.
  split; [reflexivity|]. split.
  - destruct (task_leaves_its_file Cases.env_no_package Sample.job1 Sample.uploaded)
      as [Himp _].
    apply Himp. reflexivity.
  - split; [reflexivity|].
    destruct (task_leaves_its_file (Sample.env_up []) Sample.job1 Sample.uploaded)
      as [_ Hrest].
    destruct (Hrest eq_refl) as (_ & _ & Hok & _).
    exact (Hok true eq_refl).
Defined.

(** X6.  A run of the task, whatever it returns, touches one image only:
    the bucket and the queue are as before, no row is created or deleted,
    the rows of other images and the documents under other keys are as
    before, and of the job's own row only the status can have changed. *)
Theorem task_touches_one_image (E : env) (j : job) (w : world) :
  blobs (snd (run_job E j w)) = blobs w /\
  queue (snd (run_job E j w)) = queue w /\
  dom (sim_images (snd (run_job E j w))) = dom (sim_images w) /\
  (forall i, i <> job_image_id j ->
     sim_images (snd (run_job E j w)) !! i = sim_images w !! i) /\
  (forall k, k <> doc_key (job_image_id j) ->
     image_vectors (snd (run_job E j w)) !! k = image_vectors w !! k) /\
  (forall r, sim_images w !! job_image_id j = Some r ->
     exists r', sim_images (snd (run_job E j w)) !! job_image_id j = Some r' /\
                row_meta r' = row_meta r).
Proof.
  destruct (run_job_task_run E j w) as (res & evs & Hrun & Htr).
  rewrite Hrun. simpl.
  destruct Htr; simpl;
    (split; [done|]); (split; [done|]);
    (split; [first [done|unfold update_status; apply dom_alter_L]|]);
    (split; [intros i Hi; first [done|unfold update_status; by rewrite lookup_alter_ne]|]);
    (split; [intros k Hk; first [done|by rewrite lookup_insert_ne]|]);
    intros r Hr; try (by exists r).
  unfold update_status. rewrite lookup_alter_eq, Hr. simpl. by eexists.
Qed.

(** X7.  The task never creates a row: a run for an image without a row
    that goes through returns [True] and stores the document all the same,
    so the index then holds an entry whose image has no record. *)
Theorem task_without_row_leaves_orphan (E : env) (j : job) (w : world) :
  sim_images w !! job_image_id j = None ->
  fst (run_job E j w) = Ok true ->
  sim_images (snd (run_job E j w)) !! job_image_id j = None /\
  status_of (snd (run_job E j w)) (job_image_id j) = None /\
  exists d, image_vectors (snd (run_job E j w)) !! doc_key (job_image_id j) = Some d /\
            doc_image_id d = job_image_id j /\
            doc_url d = job_object_key j.
Proof.
  intros Hnone.
  destruct (run_job_task_run E j w) as (res & evs & Hrun & Htr).
  rewrite Hrun. simpl. intros ->.
  inversion Htr; subst. unfold status_of. simpl. unfold update_status.
  rewrite lookup_alter_eq, Hnone. simpl. split; [done|]. split; [done|].
  eexists. split; [apply lookup_insert_eq|]. done.
Qed.

Lemma task_without_row_leaves_orphan_witness :
  sim_images Sample.uploaded !! "id-9" = None /\
  fst (run_job (Sample.env_up []) (Job "id-9" "similarity/id-1.png" "" None)
         Sample.uploaded) = Ok true /\
  status_of (snd (run_job (Sample.env_up []) (Job "id-9" "similarity/id-1.png" "" None)
                    Sample.uploaded)) "id-9" = None.
Proof.
  assert (Hnone : sim_images Sample.uploaded !! "id-9" = None)
    by (vm_compute; reflexivity).
  assert (Hok : fst (run_job (Sample.env_up [])
                       (Job "id-9" "similarity/id-1.png" "" None) Sample.uploaded)
                = Ok true) by (vm_compute; reflexivity).
  split; [exact Hnone|]. split; [exact Hok|].
  destruct (task_without_row_leaves_orphan (Sample.env_up [])
              (Job "id-9" "similarity/id-1.png" "" None) Sample.uploaded Hnone Hok)
    as (_ & Hst & _).
  exact Hst.
Defined.

(** ** Upload, then index *)




(** ** Tags, written and read back *)

(** X9.  The task stores the tags joined by single spaces and the search
    endpoint splits the [tags] attribute at white space.  For tags that are
    non-empty and contain no white space the two agree: a reply document
    that carries the stored [tags] field is answered with the job's tag
    list. *)
Theorem tags_round_trip (E : env) (j : job) (emb : list float) (d : rdoc) (it : item) :
  Forall word (default [] (job_tags j)) ->
  d !! "tags" = Some (doc_tags (task_doc E j emb)) ->
  hydrate E d = Ok it ->
  item_tags it = default [] (job_tags j).
Proof.
  intros Hwords Htags. unfold hydrate. rewrite Htags.
  destruct (d !! "image_id"); [|discriminate].
  destruct (match d !! "__score" with Some _ => _ | None => _ end); [|discriminate].
  destruct (d !! "title"); [|discriminate].
  destruct (d !! "url"); [|discriminate].
  intros [= <-]. simpl.
  pose proof (split_ws_join _ Hwords) as Hrt.
  change (join " " (default [] (job_tags j)))
    with (String.concat " " (default [] (job_tags j))).
  destruct (String.concat " " (default [] (job_tags j))) eqn:Hj; exact Hrt.
Qed.

Lemma tags_round_trip_witness :
  Forall word (default [] (job_tags Sample.job1)) /\
  hydrate (Sample.env_up []) Sample.hit
    = Ok (Item "id-1" 0%float "cat" "similarity/id-1.png" ["pet"; "cat"]) /\
  item_tags (Item "id-1" 0%float "cat" "similarity/id-1.png" ["pet"; "cat"])
    = default [] (job_tags Sample.job1).
Proof.
  assert (Hw : Forall word (default [] (job_tags Sample.job1))).
  { repeat constructor; try discriminate; reflexivity. }
  assert (Hh : hydrate (Sample.env_up []) Sample.hit
               = Ok (Item "id-1" 0%float "cat" "similarity/id-1.png" ["pet"; "cat"]))
    by (vm_compute; reflexivity).
  split; [exact Hw|]. split; [exact Hh|].
  apply (tags_round_trip (Sample.env_up []) Sample.job1 [] Sample.hit _ Hw);
    [vm_compute; reflexivity|exact Hh].
Defined.

(** A tag with a space inside does not come back as it went in. *)
Example tag_with_space_is_split :
  upload_tags "black cat, pet" = ["black cat"; "pet"] /\
  split_ws (join " " ["black cat"; "pet"]) = ["black"; "cat"; "pet"].
Proof. split; reflexivity. Qed.

(** White space is what Python takes for it: the no-break space U+00A0 is
    stripped from the ends of an uploaded tag and kept inside it, a stored
    tag is split at it, and a string that holds one is no [word]. *)
Example no_break_space_is_white_space :
  upload_tags (Cases.nbsp +:+ "pet" +:+ Cases.nbsp +:+ ", a" +:+ Cases.nbsp +:+ "b")
    = ["pet"; "a" +:+ Cases.nbsp +:+ "b"] /\
  split_ws ("a" +:+ Cases.nbsp +:+ "b") = ["a"; "b"] /\
  ~ word ("a" +:+ Cases.nbsp +:+ "b") /\
  hydrate (Sample.env_up []) (<["tags" := "a" +:+ Cases.nbsp +:+ "b"]> Sample.hit)
    = Ok (Item "id-1" 0%float "cat" "similarity/id-1.png" ["a"; "b"]).
Proof.
  split; [vm_compute; reflexivity|]. split; [vm_compute; reflexivity|].
  split; [|vm_compute; reflexivity].
  intros [_ H]. vm_compute in H. discriminate H.
Qed.

(** ** Searching, further *)

Lemma py_or_empty (s : string) : py_or s "" = s.
Proof. by destruct s. Qed.

Lemma hydrate_fields (E : env) (d : rdoc) (it : item) :
  hydrate E d = Ok it ->
  d !! "image_id" = Some (item_image_id it) /\
  d !! "title" = Some (item_title it) /\
  d !! "url" = Some (item_url it) /\
  exists tags, d !! "tags" = Some tags /\ item_tags it = split_ws tags.
Proof.
  unfold hydrate.
  destruct (d !! "image_id"); [|discriminate].
  destruct (match d !! "__score" with Some _ => _ | None => _ end); [|discriminate].
  destruct (d !! "title"); [|discriminate].
  destruct (d !! "url"); [|discriminate].
  destruct (d !! "tags") as [tags|]; [|discriminate].
  intros [= <-]. simpl. rewrite !py_or_empty. repeat split; try done.
  exists tags. split; [done|]. by destruct tags.
Qed.

(** X11.  A search reply is all or nothing: either it is empty, or it has
    exactly one hit per document of the KNN reply, in the reply's order, each
    with the document's [image_id], [title] and [url] as they are.  One
    document without one of the attributes, or with a score that is no
    number, empties the whole reply. *)
Theorem search_all_or_nothing (E : env) (query_text : option string)
    (query_image : option bytes) (top_k : Z) (w : world) (items : list item) :
  fst (search_vector E query_text query_image top_k w) = Ok items ->
  items = [] \/
  exists s w' q docs,
    query_source query_text query_image w = Some (s, w') /\
    st_encode E (fs w') s = Ok q /\
    ft_search E (image_vectors w') (knn_query top_k) (np_normalize E q) = Ok docs /\
    length items = length docs /\
    Forall2 (fun d it =>
               d !! "image_id" = Some (item_image_id it) /\
               d !! "title" = Some (item_title it) /\
               d !! "url" = Some (item_url it) /\
               is_Some (d !! "tags") /\
               is_Some (score_attribute E d))
            docs items.
Proof.
  rewrite search_vector_closed.
  destruct (st_load E); [discriminate|].
  destruct (query_source query_text query_image w) as [[s w']|] eqn:Hsrc; [|discriminate].
  destruct (st_encode E (fs w') s) as [q|] eqn:Henc; [|discriminate].
  simpl. intros [= <-]. unfold knn_results.
  destruct (ft_search E _ _ _) as [docs|] eqn:Hknn; [|by left].
  destruct (hydrate_all E docs) as [items|] eqn:Hall; [|by left].
  right. exists s, w', q, docs.
  apply hydrate_all_Forall2 in Hall.
  split; [done|]. split; [done|]. split; [done|].
  split; [symmetry; by eapply Forall2_length|].
  eapply Forall2_impl; [exact Hall|]. intros d it Hd.
  destruct (hydrate_fields E d it Hd) as (Hi & Ht & Hu & tags & Htags & _).
  destruct (hydrate_score E d it Hd) as [Hsc _].
  repeat split; try done; by eexists.
Qed.

Lemma search_all_or_nothing_witness :
  fst (search_vector (Sample.env_up [Sample.hit; Cases.broken_hit]) (Some "cat") None 10
         Sample.uploaded) = Ok [] /\
  fst (search_vector (Sample.env_up [Sample.hit; Sample.hit]) (Some "cat") None 10
         Sample.uploaded)
    = Ok [Item "id-1" 0%float "cat" "similarity/id-1.png" ["pet"; "cat"];
          Item "id-1" 0%float "cat" "similarity/id-1.png" ["pet"; "cat"]] /\
  ([Item "id-1" 0%float "cat" "similarity/id-1.png" ["pet"; "cat"];
    Item "id-1" 0%float "cat" "similarity/id-1.png" ["pet"; "cat"]] = [] \/
   exists docs : list rdoc, length docs = 2%nat).
Proof.
  assert (Hrun : fst (search_vector (Sample.env_up [Sample.hit; Sample.hit]) (Some "cat")
                        None 10 Sample.uploaded)
                 = Ok [Item "id-1" 0%float "cat" "similarity/id-1.png" ["pet"; "cat"];
                       Item "id-1" 0%float "cat" "similarity/id-1.png" ["pet"; "cat"]])
    by (vm_compute; reflexivity).
  split; [vm_compute; reflexivity|]. split; [exact Hrun|].
  destruct (search_all_or_nothing _ _ _ _ _ _ Hrun)
    as [Hnil|(s & w' & q & docs & _ & _ & _ & Hlen & _)]; [by left|].
  right. exists docs. by rewrite <- Hlen.
Defined.

(** X12.  Every tag of every hit is a non-empty string without white
    space, whatever the [tags] attribute of the document holds. *)
Theorem hit_tags_are_words (E : env) (query_text : option string)
    (query_image : option bytes) (top_k : Z) (w : world) (items : list item) :
  fst (search_vector E query_text query_image top_k w) = Ok items ->
  Forall (fun it => Forall word (item_tags it)) items.
Proof.
  rewrite search_vector_closed.
  destruct (st_load E); [discriminate|].
  destruct (query_source query_text query_image w) as [[s w']|]; [|discriminate].
  destruct (st_encode E (fs w') s) as [q|]; [|discriminate].
  simpl. intros [= <-]. unfold knn_results.
  destruct (ft_search E _ _ _) as [docs|]; [|constructor].
  destruct (hydrate_all E docs) as [items|] eqn:Hall; [|constructor].
  apply hydrate_all_Forall2 in Hall.
  induction Hall as [|d it docs items Hd _ IH]; constructor; [|exact IH].
  destruct (hydrate_fields E d it Hd) as (_ & _ & _ & tags & _ & ->).
  apply split_ws_words.
Qed.

Lemma hit_tags_are_words_witness :
  fst (search_vector (Sample.env_up [<["tags" := "  black   cat "]> Sample.hit])
         (Some "cat") None 10 Sample.uploaded)
    = Ok [Item "id-1" 0%float "cat" "similarity/id-1.png" ["black"; "cat"]] /\
  Forall (fun it => Forall word (item_tags it))
    [Item "id-1" 0%float "cat" "similarity/id-1.png" ["black"; "cat"]].
Proof.
  assert (Hrun : fst (search_vector
                        (Sample.env_up [<["tags" := "  black   cat "]> Sample.hit])
                        (Some "cat") None 10 Sample.uploaded)
                 = Ok [Item "id-1" 0%float "cat" "similarity/id-1.png" ["black"; "cat"]])
    by (vm_compute; reflexivity).
  split; [exact Hrun|].
  exact (hit_tags_are_words _ _ _ _ _ _ Hrun).
Defined.

(** ** The writes of each kind of request *)

Lemma handle_events (E : env) (rq : request) (w : world) :
  exists evs,
    handle E rq w = replay evs w /\ Forall (event_of rq) evs /\
    (length (List.filter is_load evs) <= if classifier_loaded w then 0 else 1)%nat.
Proof.
  destruct rq as [f data title tags|qt qi k|data k| |j]; simpl.
  - destruct f as [name|].
    2:{ exists []. rewrite upload_image_no_filename. repeat split; [constructor|].
        simpl. destruct (classifier_loaded w); lia. }
    rewrite upload_image_closed.
    assert (Hle : (0 <= if classifier_loaded w then 0 else 1)%nat)
      by (destruct (classifier_loaded w); lia).
    destruct (minio_fault E); [by exists []|].
    destruct (pg_fault E).
    { eexists [BlobPut _ _]. split; [reflexivity|]. by repeat constructor. }
    destruct (broker_fault E).
    + eexists [BlobPut _ _; SqlInsert _ _]. split; [reflexivity|]. by repeat constructor.
    + eexists [BlobPut _ _; SqlInsert _ _; Enqueue _]. split; [reflexivity|].
      by repeat constructor.
  - assert (Hle : (0 <= if classifier_loaded w then 0 else 1)%nat)
      by (destruct (classifier_loaded w); lia).
    rewrite search_vector_closed. unfold query_source.
    destruct (st_load E); [by exists []|].
    destruct (truthy (default "" qt)).
    { exists []. by destruct (st_encode E (fs w) _). }
    destruct qi as [data|]; [|by exists []].
    exists [FileWrite "/tmp/query.img" data].
    destruct (st_encode E _ _); by repeat constructor.
  - unfold classify_image, try_except, get_image_classifier, lift, check, emit,
      raise, ret, bind.
    destruct (pil_open E data).
    { exists []. repeat split; [constructor|]. simpl.
      destruct (classifier_loaded w); lia. }
    destruct (classifier_loaded w) eqn:Hloaded.
    { exists []. destruct (clf_predict E data k); repeat split; try constructor. }
    destruct (clf_load E).
    { exists []. repeat split; [constructor|]. simpl. lia. }
    exists [ClassifierLoad].
    destruct (clf_predict E data k); repeat split; repeat constructor.
  - exists []. repeat split; [constructor|]. simpl. destruct (classifier_loaded w); lia.
  - destruct (run_job_task_run E j w) as (res & evs & Hrun & Htr).
    exists evs. rewrite Hrun. split; [done|].
    destruct Htr; (split; [by repeat constructor|]); simpl;
      destruct (classifier_loaded w); lia.
Qed.

Lemma replay_classifier_loaded (evs : list event) (w : world) :
  classifier_loaded (replay evs w) = classifier_loaded w || existsb is_load evs.
Proof.
  revert w. induction evs as [|ev evs IH]; intros w; simpl.
  - by rewrite orb_false_r.
  - rewrite IH. destruct ev; simpl; try reflexivity.
    by rewrite orb_true_r.
Qed.

Lemma replay_same_stores (evs : list event) (w : world) :
  Forall (fun ev => match ev with
                    | FileWrite _ _ | ClassifierLoad => True
                    | _ => False
                    end) evs ->
  same_stores (replay evs w) w.
Proof.
  revert w. induction evs as [|ev evs IH]; intros w Hevs; [done|].
  inversion Hevs as [|? ? Hev Hrest]; subst.
  change (replay (ev :: evs) w) with (replay evs (apply_event ev w)).
  destruct (IH (apply_event ev w) Hrest) as (Hb & Hs & Hi & Hq).
  unfold same_stores. rewrite Hb, Hs, Hi, Hq. by destruct ev.
Qed.

(** X10.  Searching, classifying and the health probe are read-only for
    the service's data: whatever they return, the bucket, the table, the
    index and the queue are as before.  A search writes at most the file
    [/tmp/query.img]; a classification writes no file. *)
Theorem read_only_endpoints (E : env) (w : world) :
  (forall qt qi k,
     same_stores (snd (search_vector E qt qi k w)) w /\
     classifier_loaded (snd (search_vector E qt qi k w)) = classifier_loaded w /\
     forall p, p <> "/tmp/query.img" ->
       fs (snd (search_vector E qt qi k w)) !! p = fs w !! p) /\
  (forall data k,
     same_stores (snd (classify_image E data k w)) w /\
     fs (snd (classify_image E data k w)) = fs w) /\
  health w = (Ok "ok", w).
Proof.
  split; [|split; [|reflexivity]].
  - intros qt qi k.
    destruct (handle_events E (SearchVector qt qi k) w) as (evs & Hh & Hev & _).
    simpl in Hh. rewrite Hh. clear Hh. split; [|split].
    + apply replay_same_stores. eapply Forall_impl; [exact Hev|].
      intros ev. by destruct ev.
    + rewrite replay_classifier_loaded.
      assert (existsb is_load evs = false) as ->; [|by rewrite orb_false_r].
      induction Hev as [|ev evs Hev _ IH]; [done|]. simpl. rewrite IH.
      by destruct ev.
    + intros p Hp. revert w. induction Hev as [|ev evs Hev _ IH]; intros w; [done|].
      simpl. rewrite IH. destruct ev; simpl in *; try done.
      subst. by rewrite lookup_insert_ne.
  - intros data k.
    destruct (handle_events E (Classify data k) w) as (evs & Hh & Hev & _).
    simpl in Hh. rewrite Hh. clear Hh. split.
    + apply replay_same_stores. eapply Forall_impl; [exact Hev|].
      intros ev. by destruct ev.
    + revert w. induction Hev as [|ev evs Hev _ IH]; intros w; [done|].
      simpl. rewrite IH. by destruct ev.
Qed.

(** ** The classifier *)

Lemma filter_is_load_le_1 (evs : list event) :
  (length (List.filter is_load evs) <= 1)%nat ->
  length (List.filter is_load evs) = if existsb is_load evs then 1%nat else 0%nat.
Proof.
  induction evs as [|ev evs IH]; [done|]. simpl.
  destruct (is_load ev); simpl.
  - intros Hle. destruct (List.filter is_load evs); simpl in *; [done|lia].
  - exact IH.
Qed.

Lemma serve_loads (rs : list (env * request)) (w : world) :
  loads w = (if classifier_loaded w then 1%nat else 0%nat) ->
  loads (serve rs w)
    = if classifier_loaded (serve rs w) then 1%nat else 0%nat.
Proof.
  revert w. induction rs as [|[E rq] rs IH]; intros w Hw; [done|]. simpl.
  apply IH. destruct (handle_events E rq w) as (evs & -> & _ & Hle).
  unfold loads in *. rewrite log_replay, List.filter_app, length_app, Hw.
  rewrite replay_classifier_loaded.
  destruct (classifier_loaded w); simpl.
  - assert (length (List.filter is_load evs) = 0%nat) as -> by lia. done.
  - apply filter_is_load_le_1. lia.
Qed.

(** X13.  The classifier is loaded at most once per process: over any
    sequence of requests from a fresh start, the log holds one load if the
    classifier is loaded and none otherwise.  Once it is loaded, a
    classification no longer depends on whether loading would succeed. *)
Theorem classifier_loaded_once (rs : list (env * request)) :
  loads (serve rs fresh_world)
    = (if classifier_loaded (serve rs fresh_world) then 1%nat else 0%nat) /\
  (loads (serve rs fresh_world) <= 1)%nat /\
  (forall E data k w,
     classifier_loaded w = true -> pil_open E data = None ->
     classify_image E data k w
       = (match clf_predict E data k with
          | Ok preds => Ok preds
          | Raise e => Raise (http_500 E e)
          end, w)).
Proof.
  assert (H : loads (serve rs fresh_world)
              = if classifier_loaded (serve rs fresh_world) then 1%nat else 0%nat)
    by (by apply serve_loads).
  split; [exact H|]. split.
  - rewrite H. destruct (classifier_loaded (serve rs fresh_world)); lia.
  - intros E data k w Hloaded Hopen.
    unfold classify_image, try_except, get_image_classifier, lift, check, emit,
      raise, ret, bind, http_500.
    rewrite Hopen, Hloaded. by destruct (clf_predict E data k).
Qed.

(** X14.  A classification fails with HTTP 500 only.  An image that cannot
    be opened fails before the classifier is touched, so it never triggers
    the load; a load that fails leaves the classifier unloaded, so the next
    request tries again; and after an answer the classifier is loaded. *)
Theorem classify_failures (E : env) (data : bytes) (top_k : Z) (w : world) :
  (forall e, fst (classify_image E data top_k w) = Raise e ->
     exists e0, e = HTTPException 500 (str_exc E e0)) /\
  (forall e0, pil_open E data = Some e0 ->
     classify_image E data top_k w = (Raise (http_500 E e0), w)) /\
  (forall e0, pil_open E data = None -> classifier_loaded w = false ->
     clf_load E = Some e0 ->
     classify_image E data top_k w = (Raise (http_500 E e0), w)) /\
  (forall preds, fst (classify_image E data top_k w) = Ok preds ->
     classifier_loaded (snd (classify_image E data top_k w)) = true /\
     clf_predict E data top_k = Ok preds).
Proof.
  unfold classify_image, try_except, get_image_classifier, lift, check, emit,
    raise, ret, bind, http_500.
  destruct (pil_open E data) as [e1|]; simpl.
  { repeat split; try done; try congruence. intros e [= <-]. by eexists. }
  destruct (classifier_loaded w) eqn:Hl; simpl.
  { destruct (clf_predict E data top_k) as [preds|e2]; simpl;
      repeat split; try done; try congruence.
    intros e [= <-]. by eexists. }
  destruct (clf_load E) as [e3|]; simpl.
  { repeat split; try done; try congruence. intros e [= <-]. by eexists. }
  destruct (clf_predict E data top_k) as [preds|e2]; simpl;
    repeat split; try done; try congruence.
  intros e [= <-]. by eexists.
Qed.

Example classify_retries_the_load :
  fst (classify_image Cases.env_no_classifier Sample.png 5 fresh_world)
    = Raise (HTTPException 500 "model not found") /\
  classifier_loaded (snd (classify_image Cases.env_no_classifier Sample.png 5 fresh_world))
    = false /\
  loads (serve [(Cases.env_no_classifier, Classify Sample.png 5);
                (Sample.env_up [], Classify Sample.png 5);
                (Cases.env_no_classifier, Classify Sample.png 5)] fresh_world) = 1%nat.
Proof. repeat split; vm_compute; reflexivity. Qed.

(** ** Nothing is deleted, rows are not rewritten *)

Lemma apply_event_doms (ev : event) (w : world) :
  dom (blobs w) ⊆ dom (blobs (apply_event ev w)) /\
  dom (sim_images w) ⊆ dom (sim_images (apply_event ev w)) /\
  dom (image_vectors w) ⊆ dom (image_vectors (apply_event ev w)) /\
  dom (fs w) ⊆ dom (fs (apply_event ev w)).
Proof.
  destruct ev as [k data|p data|i r|i st|k d|j|]; simpl; repeat split;
    try done; try (rewrite dom_insert_L; set_solver).
  - unfold insert_do_nothing. destruct (sim_images w !! i); [done|].
    rewrite dom_insert_L. set_solver.
  - unfold update_status. by rewrite dom_alter_L.
Qed.

Lemma replay_doms (evs : list event) (w : world) :
  dom (blobs w) ⊆ dom (blobs (replay evs w)) /\
  dom (sim_images w) ⊆ dom (sim_images (replay evs w)) /\
  dom (image_vectors w) ⊆ dom (image_vectors (replay evs w)) /\
  dom (fs w) ⊆ dom (fs (replay evs w)).
Proof.
  revert w. induction evs as [|ev evs IH]; intros w; [done|].
  change (replay (ev :: evs) w) with (replay evs (apply_event ev w)).
  destruct (IH (apply_event ev w)) as (Hb & Hs & Hi & Hf).
  destruct (apply_event_doms ev w) as (Hb' & Hs' & Hi' & Hf').
  repeat split; etrans; eauto.
Qed.

(** X16.  No request and no task run ever deletes anything: over any
    sequence of them, from any state, every object of the bucket, every row,
    every indexed document and every file that was there is still there. *)
Theorem nothing_is_deleted (rs : list (env * request)) (w : world) :
  dom (blobs w) ⊆ dom (blobs (serve rs w)) /\
  dom (sim_images w) ⊆ dom (sim_images (serve rs w)) /\
  dom (image_vectors w) ⊆ dom (image_vectors (serve rs w)) /\
  dom (fs w) ⊆ dom (fs (serve rs w)).
Proof.
  destruct (serve_trace rs w) as (evs & -> & _). apply replay_doms.
Qed.

Lemma apply_event_row (ev : event) (w : world) (i : string) (r : row) :
  status_write_ok ev ->
  sim_images w !! i = Some r ->
  exists r', sim_images (apply_event ev w) !! i = Some r' /\
             row_meta r' = row_meta r /\
             (row_status r' = row_status r \/ row_status r' = "indexed").
Proof.
  intros Hev Hr. destruct ev as [k data|p data|i' r0|i' st|k d|j|]; simpl;
    try (exists r; by repeat split; [|left]).
  - unfold insert_do_nothing. destruct (sim_images w !! i') eqn:Hi'.
    + exists r. by repeat split; [|left].
    + exists r. split; [|by split; [|left]].
      rewrite lookup_insert_ne; [done|]. intros ->. congruence.
  - unfold update_status. destruct (decide (i' = i)) as [->|Hne].
    + rewrite lookup_alter_eq, Hr. simpl. eexists. split; [done|].
      split; [done|]. right. exact Hev.
    + rewrite lookup_alter_ne by done. exists r. by repeat split; [|left].
Qed.

Lemma replay_row (evs : list event) (w : world) (i : string) (r : row) :
  Forall status_write_ok evs ->
  sim_images w !! i = Some r ->
  exists r', sim_images (replay evs w) !! i = Some r' /\
             row_meta r' = row_meta r /\
             (row_status r' = row_status r \/ row_status r' = "indexed").
Proof.
  revert w r. induction evs as [|ev evs IH]; intros w r Hevs Hr.
  - exists r. by repeat split; [|left].
  - inversion Hevs as [|? ? Hev Hrest]; subst.
    change (replay (ev :: evs) w) with (replay evs (apply_event ev w)).
    destruct (apply_event_row ev w i r Hev Hr) as (r1 & Hr1 & Hm1 & Hs1).
    destruct (IH _ r1 Hrest Hr1) as (r2 & Hr2 & Hm2 & Hs2).
    exists r2. split; [done|]. split; [congruence|].
    destruct Hs2 as [Hs2|Hs2]; [|by right].
    destruct Hs1 as [Hs1|Hs1]; [left|right]; congruence.
Qed.

(** X17.  A row, once in the table, keeps its title, tags, url and upload
    time for ever, and its status either stays or becomes ['indexed']: over
    any sequence of requests and task runs no record goes back from
    ['indexed'], and a second upload under the same id rewrites nothing. *)
Theorem rows_are_never_rewritten (rs : list (env * request)) (w : world)
    (i : string) (r : row) :
  sim_images w !! i = Some r ->
  exists r',
    sim_images (serve rs w) !! i = Some r' /\
    row_meta r' = row_meta r /\
    (row_status r' = row_status r \/ row_status r' = "indexed") /\
    (row_status r = "indexed" -> status_of (serve rs w) i = Some "indexed").
Proof.
  intros Hr. destruct (serve_trace rs w) as (evs & -> & _ & Hst).
  destruct (replay_row evs w i r Hst Hr) as (r' & Hr' & Hm & Hs).
  exists r'. split; [done|]. split; [done|]. split; [done|].
  intros Hidx. unfold status_of. rewrite Hr'. simpl.
  destruct Hs as [Hs|Hs]; congruence.
Qed.

Lemma rows_are_never_rewritten_witness :
  sim_images Sample.uploaded !! "id-1"
    = Some (Row "cat" (Some ["pet"; "cat"]) "similarity/id-1.png" "pending" 1000) /\
  exists r',
    sim_images (serve [(Sample.env_up [], Task Sample.job1);
                       (Sample.env_up [], Upload (Some "other.gif") [] "dog" "x")]
                  Sample.uploaded) !! "id-1" = Some r' /\
    row_meta r' = ("cat", Some ["pet"; "cat"], "similarity/id-1.png", 1000).
Proof.
  assert (Hr : sim_images Sample.uploaded !! "id-1"
               = Some (Row "cat" (Some ["pet"; "cat"]) "similarity/id-1.png" "pending" 1000))
    by (vm_compute; reflexivity).
  split; [exact Hr|].
  destruct (rows_are_never_rewritten
              [(Sample.env_up [], Task Sample.job1);
               (Sample.env_up [], Upload (Some "other.gif") [] "dog" "x")]
              Sample.uploaded "id-1" _ Hr) as (r' & Hr' & Hm & _).
  by exists r'.
Defined.

(** ** A failed status update *)

(** X18.  When everything up to the index write goes through and the
    status update then fails, the task raises that error with the document
    already in the index and the record's status as it was: the index can
    hold an entry for a record that is not ['indexed']. *)
Theorem failed_update_leaves_entry (E : env) (j : job) (w : world)
    (data : bytes) (emb : list float) (e : exn) :
  minio_fault E = None ->
  blobs w !! job_object_key j = Some data ->
  st_load E = None ->
  st_encode E (task_files E w data) (tmp_stem E (fs w) +:+ ".img") = Ok emb ->
  redis_add_fault E (image_vectors w) (doc_key (job_image_id j)) (task_doc E j emb) = None ->
  pg_fault E = Some e ->
  fst (run_job E j w) = Raise e /\
  image_vectors (snd (run_job E j w)) !! doc_key (job_image_id j)
    = Some (task_doc E j emb) /\
  sim_images (snd (run_job E j w)) = sim_images w /\
  status_of (snd (run_job E j w)) (job_image_id j) = status_of w (job_image_id j).
Proof.
  intros Hm Hb Hl Henc Hadd Hpg.
  destruct (run_job_task_run E j w) as (res & evs & Hrun & Htr).
  rewrite Hrun. simpl.
  destruct Htr as [e' ? ?|? ? ?|d0 e' ? ? ? ?|d0 e' ? ? ? ? ?|d0 emb0 e' ? ? ? ? ? ?
                  |d0 emb0 e' ? ? ? ? ? ? ?|d0 emb0 ? ? ? ? ? ? ?|e' Hi];
    try (apply import_fault_load in Hi);
    try congruence;
    assert (d0 = data) as -> by congruence;
    try congruence;
    assert (emb0 = emb) as -> by congruence;
    try congruence.
  split; [congruence|]. simpl. split; [apply lookup_insert_eq|done].
Qed.

Lemma failed_update_leaves_entry_witness :
  blobs Sample.uploaded !! job_object_key Sample.job1 = Some Sample.png /\
  pg_fault (Cases.env_with "id-2" None (Some Cases.refused) None) = Some Cases.refused /\
  fst (run_job (Cases.env_with "id-2" None (Some Cases.refused) None) Sample.job1
         Sample.uploaded) = Raise Cases.refused /\
  status_of (snd (run_job (Cases.env_with "id-2" None (Some Cases.refused) None)
                    Sample.job1 Sample.uploaded)) "id-1"
    = status_of Sample.uploaded "id-1".
Proof.
  assert (Hblob : blobs Sample.uploaded !! job_object_key Sample.job1 = Some Sample.png)
    by (vm_compute; reflexivity).
  split; [exact Hblob|]. split; [reflexivity|].
  destruct (failed_update_leaves_entry
              (Cases.env_with "id-2" None (Some Cases.refused) None) Sample.job1
              Sample.uploaded Sample.png
              (Sample.embed_bytes Sample.png) Cases.refused
              eq_refl Hblob eq_refl) as (Hres & _ & _ & Hst).
  - vm_compute. reflexivity.
  - reflexivity.
  - reflexivity.
  - split; [exact Hres|exact Hst].
Defined.
